(** * autopilot: the functions of [src/extension.ts]

    A shallow embedding of [parseAiResponse] and of the control flow of
    [analyzeWithDeepSeek], together with the properties the project
    documentation states about them, and of the scan of the workspace, the
    key files, the result page and the command handler, with further
    properties read off the code.

    JavaScript strings are sequences of UTF-16 code units; they are modelled
    as lists of [N].  The string methods the parser calls ([split],
    [includes], [toLowerCase], [trim], [replace] with the pattern [/^- /],
    [join], [slice]) are written out after ECMA-262. *)

From Stdlib Require Import String Ascii NArith.
From stdpp Require Import base option list gmap.

Local Open Scope string_scope.
Local Open Scope list_scope.
Local Open Scope N_scope.

(** ** Strings *)

Abbreviation codeunit := N.
Abbreviation jsstring := (list codeunit).

(** A string literal of the source, one code unit per character. *)
Fixpoint js (s : string) : jsstring :=
  match s with
  | EmptyString => []
  | String a s' => N_of_ascii a :: js s'
  end.
Arguments js s%_string.

(** The line break ['\n']. *)
Definition LF : jsstring := [10].

(** [s.startsWith(pat)]: used for matching at one position. *)
Fixpoint startsWith (pat s : jsstring) : bool :=
  match pat, s with
  | [], _ => true
  | _ :: _, [] => false
  | p :: pat', c :: s' => (p =? c) && startsWith pat' s'
  end.

(** [s.includes(pat)]: [pat] occurs at some position of [s]. *)
Fixpoint includes (s pat : jsstring) : bool :=
  startsWith pat s ||
  match s with
  | [] => false
  | _ :: s' => includes s' pat
  end.

(** [String.prototype.split] with a string separator.  The scan goes left to
    right; [piece] holds the current substring in reverse, and [skip] counts
    the code units of a separator just matched that are still to be passed
    over, so that matches do not overlap.  The last substring is always
    pushed, also when it is empty. *)
Fixpoint split_from (sep : jsstring) (skip : nat) (piece s : jsstring)
  : list jsstring :=
  match s with
  | [] => [rev piece]
  | c :: s' =>
    match skip with
    | S k => split_from sep k piece s'
    | O =>
      if startsWith sep s
      then rev piece :: split_from sep (length sep - 1) [] s'
      else split_from sep 0 (c :: piece) s'
    end
  end.

(** With the empty separator the string is cut into its code units. *)
Definition split (s sep : jsstring) : list jsstring :=
  match sep with
  | [] => map (fun c => [c]) s
  | _ :: _ => split_from sep 0 [] s
  end.

(** [Array.prototype.join] on an array of strings. *)
Fixpoint join (sep : jsstring) (l : list jsstring) : jsstring :=
  match l with
  | [] => []
  | [x] => x
  | x :: rest => x ++ sep ++ join sep rest
  end.

(** [lines.slice(1)]. *)
Definition slice1 {A} (l : list A) : list A := drop 1 l.

(** WhiteSpace and LineTerminator code points of ECMA-262, all in the basic
    plane: TAB, LF, VT, FF, CR, SP, NBSP, the space separators of Unicode,
    LS, PS and ZWNBSP. *)
Definition isWhiteSpace (c : codeunit) : bool :=
  ((9 <=? c) && (c <=? 13)) || (c =? 32) || (c =? 160) || (c =? 5760) ||
  ((8192 <=? c) && (c <=? 8202)) || (c =? 8232) || (c =? 8233) ||
  (c =? 8239) || (c =? 8287) || (c =? 12288) || (c =? 65279).

Fixpoint trimStart (s : jsstring) : jsstring :=
  match s with
  | [] => []
  | c :: s' => if isWhiteSpace c then trimStart s' else s
  end.

Definition trimEnd (s : jsstring) : jsstring := rev (trimStart (rev s)).

(** [s.trim()]. *)
Definition trim (s : jsstring) : jsstring := trimEnd (trimStart s).

(** [line.replace(/^- /, '')]: the pattern is anchored at the start of the
    input and has no [g] flag, so at most one marker goes. *)
Definition replaceMarker (line : jsstring) : jsstring :=
  if startsWith (js "- ") line then drop 2 line else line.

Definition isAscii (c : codeunit) : bool := c <? 128.

(** Lower case of one ASCII code unit: [A]..[Z] move to [a]..[z]. *)
Definition asciiLower (c : codeunit) : codeunit :=
  if (65 <=? c) && (c <=? 90) then c + 32 else c.

(** ** Exceptions *)

Inductive jserror : Type :=
| TypeError (msg : string)
| Error (msg : jsstring).

Inductive completion (A : Type) : Type :=
| Normal (a : A)
| Throw (e : jserror).
Arguments Normal {A} a.
Arguments Throw {A} e.

Definition cbind {A B} (c : completion A) (k : A -> completion B)
  : completion B :=
  match c with
  | Normal a => k a
  | Throw e => Throw e
  end.

(** [array.forEach] with a callback that updates a captured object: the
    object is threaded through the calls, and a throw ends the loop. *)
Fixpoint forEach {A S} (f : S -> A -> completion S) (st : S) (l : list A)
  : completion S :=
  match l with
  | [] => Normal st
  | x :: l' => cbind (f st x) (fun st' => forEach f st' l')
  end.

(** ** The analysis record *)

Record ProjectAnalysis : Type := mkProjectAnalysis {
  projectName : jsstring;
  techStack : list jsstring;
  projectIdeas : list jsstring;
  folderStructureAnalysis : jsstring;
  summary : jsstring
}.

Definition set_projectName (v : jsstring) (r : ProjectAnalysis) :=
  mkProjectAnalysis v (techStack r) (projectIdeas r)
                    (folderStructureAnalysis r) (summary r).
Definition set_techStack (v : list jsstring) (r : ProjectAnalysis) :=
  mkProjectAnalysis (projectName r) v (projectIdeas r)
                    (folderStructureAnalysis r) (summary r).
Definition set_projectIdeas (v : list jsstring) (r : ProjectAnalysis) :=
  mkProjectAnalysis (projectName r) (techStack r) v
                    (folderStructureAnalysis r) (summary r).
Definition set_folderStructureAnalysis (v : jsstring) (r : ProjectAnalysis) :=
  mkProjectAnalysis (projectName r) (techStack r) (projectIdeas r)
                    v (summary r).
Definition set_summary (v : jsstring) (r : ProjectAnalysis) :=
  mkProjectAnalysis (projectName r) (techStack r) (projectIdeas r)
                    (folderStructureAnalysis r) v.

(** The object literal [parseAiResponse] starts from. *)
Definition emptyAnalysis : ProjectAnalysis :=
  mkProjectAnalysis [] [] [] [] [].

(** ** The parser *)

Section Parser.

(** Lower-casing of a string that has a code unit outside ASCII follows the
    Unicode case tables of the runtime, which are no part of the repository;
    they are a parameter. *)
Variable unicodeLower : jsstring -> jsstring.

(** [s.toLowerCase()]. *)
Definition toLowerCase (s : jsstring) : jsstring :=
  if forallb isAscii s then map asciiLower s else unicodeLower s.

(** The body of the callback given to [sections.forEach]; [result] is the
    record the callback assigns into. *)
Definition processSection (result : ProjectAnalysis) (section : jsstring)
  : completion ProjectAnalysis :=
  let lines := split section LF in
  match lines !! 0%nat with
  | None => Throw (TypeError "Cannot read properties of undefined")
  | Some line0 =>
    let header := toLowerCase line0 in
    if includes header (js "project name") then
      Normal (set_projectName (trim (join (js " ") (slice1 lines))) result)
    else if includes header (js "tech stack") then
      Normal (set_techStack
                (map (fun line => trim (replaceMarker line)) (slice1 lines))
                result)
    else if includes header (js "project purpose")
            || includes header (js "project ideas") then
      Normal (set_projectIdeas
                (map (fun line => trim (replaceMarker line)) (slice1 lines))
                result)
    else if includes header (js "folder structure") then
      Normal (set_folderStructureAnalysis (join LF (slice1 lines)) result)
    else if includes header (js "summary") then
      Normal (set_summary (join LF (slice1 lines)) result)
    else Normal result
  end.

Definition parseAiResponse (rawText : jsstring)
  : completion ProjectAnalysis :=
  let sections := split rawText (LF ++ LF) in
  forEach processSection emptyAnalysis sections.

End Parser.

(** A case table that leaves every string with a code unit outside ASCII as
    it is; it serves to run the parser on given inputs. *)
Definition asciiOnlyLower : jsstring -> jsstring := fun s => s.

(** Text made of the given lines, with a line break between two of them. *)
Definition text (l : list string) : jsstring := join LF (map js l).


(** ** The rule table the documentation describes

    The documentation reads the cascade of [processSection] as a list of
    rules tried in a fixed order.  The definitions below follow that wording;
    [processSection_rules] relates them to the code. *)

Inductive field : Type :=
| FProjectName
| FTechStack
| FProjectIdeas
| FFolderStructure
| FSummary.

Global Instance field_eq_dec : EqDecision field.
Proof. solve_decision. Defined.

Definition priority : list field :=
  [FProjectName; FTechStack; FProjectIdeas; FFolderStructure; FSummary].

(** The keyword test of a rule, on a heading already in lower case. *)
Definition keywordMatch (f : field) (header : jsstring) : bool :=
  match f with
  | FProjectName => includes header (js "project name")
  | FTechStack => includes header (js "tech stack")
  | FProjectIdeas =>
      includes header (js "project purpose")
      || includes header (js "project ideas")
  | FFolderStructure => includes header (js "folder structure")
  | FSummary => includes header (js "summary")
  end.

(** The first rule of [priority] whose keyword occurs in the heading. *)
Definition category (header : jsstring) : option field :=
  List.find (fun f => keywordMatch f header) priority.

(** Each body line of a list field: marker stripped, then trimmed. *)
Definition listEntry (line : jsstring) : jsstring := trim (replaceMarker line).

(** The transform of a rule: the record after the rule has stored the body. *)
Definition assignField (f : field) (body : list jsstring)
  (r : ProjectAnalysis) : ProjectAnalysis :=
  match f with
  | FProjectName => set_projectName (trim (join (js " ") body)) r
  | FTechStack => set_techStack (map listEntry body) r
  | FProjectIdeas => set_projectIdeas (map listEntry body) r
  | FFolderStructure => set_folderStructureAnalysis (join LF body) r
  | FSummary => set_summary (join LF body) r
  end.

(** A field of the record is a string or a sequence of strings. *)
Inductive fieldValue : Type :=
| Text (s : jsstring)
| Items (l : list jsstring).

Definition getField (f : field) (r : ProjectAnalysis) : fieldValue :=
  match f with
  | FProjectName => Text (projectName r)
  | FTechStack => Items (techStack r)
  | FProjectIdeas => Items (projectIdeas r)
  | FFolderStructure => Text (folderStructureAnalysis r)
  | FSummary => Text (summary r)
  end.

(** What a rule stores for a body. *)
Definition sectionValue (f : field) (body : list jsstring) : fieldValue :=
  match f with
  | FProjectName => Text (trim (join (js " ") body))
  | FTechStack | FProjectIdeas => Items (map listEntry body)
  | FFolderStructure | FSummary => Text (join LF body)
  end.

(** The heading of a section is its first line, the body the other lines. *)
Definition headingOf (section : jsstring) : jsstring :=
  default [] (split section LF !! 0%nat).

Definition bodyOf (section : jsstring) : list jsstring :=
  slice1 (split section LF).

(** ** The remote call

    [analyzeWithDeepSeek] reads the extension configuration, checks the key,
    posts the prompt and parses the reply.  Its effects are the nodes of a
    small program tree; [run] plays a tree against a network and records the
    events in the order they happen.  A rejected promise is a [Throw]. *)

(** Values that [response.json()] can produce. *)
#[local] Set Warnings "-register-all".
Inductive jsvalue : Type :=
| VUndefined
| VNull
| VBool (b : bool)
| VNumber (literal : jsstring)
| VString (s : jsstring)
| VArray (items : list jsvalue)
| VObject (props : list (jsstring * jsvalue)).

Record chatMessage : Type := mkChatMessage {
  role : jsstring;
  content : jsstring
}.

(** The object handed to [JSON.stringify] for the request body;
    [temperature] holds the number literal of the source. *)
Record chatBody : Type := mkChatBody {
  model : jsstring;
  messages : list chatMessage;
  temperature : jsstring
}.

Record requestInit : Type := mkRequestInit {
  method : jsstring;
  headers : list (jsstring * jsstring);
  body : chatBody
}.

Record response : Type := mkResponse {
  ok : bool;
  statusText : jsstring;
  json : completion jsvalue
}.

Inductive event : Type :=
| EvGetConfiguration (section : jsstring)
| EvFetch (url : jsstring) (init : requestInit).

Inductive prog (A : Type) : Type :=
| Done (c : completion A)
| GetConfiguration (section : jsstring) (k : prog A)
| Fetch (url : jsstring) (init : requestInit)
        (k : completion response -> prog A).
Arguments Done {A} c.
Arguments GetConfiguration {A} section k.
Arguments Fetch {A} url init k.

Definition network := jsstring -> requestInit -> completion response.

Fixpoint run {A} (net : network) (p : prog A) : list event * completion A :=
  match p with
  | Done c => ([], c)
  | GetConfiguration s k =>
      let (t, c) := run net k in (EvGetConfiguration s :: t, c)
  | Fetch url init k =>
      let (t, c) := run net (k (net url init)) in (EvFetch url init :: t, c)
  end.

Definition isFetch (e : event) : bool :=
  match e with
  | EvFetch _ _ => true
  | EvGetConfiguration _ => false
  end.

(** [!s] on a string: only the empty string is falsy. *)
Definition isFalsy (s : jsstring) : bool :=
  match s with
  | [] => true
  | _ :: _ => false
  end.

Fixpoint lookupProp (name : jsstring) (props : list (jsstring * jsvalue))
  : jsvalue :=
  match props with
  | [] => VUndefined
  | (k, v) :: rest => if bool_decide (k = name) then v else lookupProp name rest
  end.

(** The message of the [TypeError] for a property read on [undefined] or
    [null], as Node words it. *)
Definition cannotRead (base name : string) : jserror :=
  TypeError
    (String.append "Cannot read properties of "
       (String.append base
          (String.append " (reading '" (String.append name "')")))).

(** [v.name] for the names read from the reply ([choices], [message],
    [content]), which no primitive or array has. *)
Definition getProp (v : jsvalue) (name : string) : completion jsvalue :=
  match v with
  | VUndefined => Throw (cannotRead "undefined" name)
  | VNull => Throw (cannotRead "null" name)
  | VObject props => Normal (lookupProp (js name) props)
  | _ => Normal VUndefined
  end.

(** [v[0]]. *)
Definition getIndex0 (v : jsvalue) : completion jsvalue :=
  match v with
  | VUndefined => Throw (cannotRead "undefined" "0")
  | VNull => Throw (cannotRead "null" "0")
  | VArray items => Normal (default VUndefined (items !! 0%nat))
  | VString s =>
      Normal (match s with [] => VUndefined | c :: _ => VString [c] end)
  | VObject props => Normal (lookupProp (js "0") props)
  | _ => Normal VUndefined
  end.

Definition configError : jserror :=
  Error (js "DeepSeek API key not configured. Check extension settings.").

Definition endpoint : jsstring :=
  js "https://api.deepseek.com/v1/chat/completions".

Section Remote.

Variable unicodeLower : jsstring -> jsstring.

(** [JSON.stringify(files, null, 2)] of the runtime, on the key files in
    insertion order. *)
Variable stringifyFiles : list (jsstring * jsstring) -> jsstring.

(** The call [parseAiResponse(rawAnalysis)] on a value of type [any]: only a
    string has a [split] method, and [undefined] and [null] have no
    property at all. *)
Definition parseReply (rawAnalysis : jsvalue) : completion ProjectAnalysis :=
  match rawAnalysis with
  | VString s => parseAiResponse unicodeLower s
  | VUndefined => Throw (cannotRead "undefined" "split")
  | VNull => Throw (cannotRead "null" "split")
  | _ => Throw (TypeError "rawText.split is not a function")
  end.

Definition prompt (structure : jsstring) (files : list (jsstring * jsstring))
  : jsstring :=
  join LF
    [ js "Analyze this project structure and files. Provide:";
      js "1. Project name (from directory structure)";
      js "2. Tech stack (programming languages, frameworks, tools)";
      js "3. Project purpose/ideas (based on files and structure)";
      js "4. Folder structure analysis";
      js "5. Brief summary";
      js "";
      js "Project structure:";
      structure;
      js "";
      js "Key files content:";
      stringifyFiles files ].

(** The body of [analyzeWithDeepSeek] after the binding of [apiKey].  The
    source binds [apiKey] to the empty string, so the program is this body
    at the empty key, [analyzeWithDeepSeek] below; the key is a parameter
    here to state what the check [!apiKey] does. *)
Definition analyzeWithKey (apiKey structure : jsstring)
  (files : list (jsstring * jsstring)) : prog ProjectAnalysis :=
  GetConfiguration (js "autopilot")
    (if isFalsy apiKey then Done (Throw configError)
     else
       Fetch endpoint
         (mkRequestInit (js "POST")
            [ (js "Content-Type", js "application/json");
              (js "Authorization", js "Bearer " ++ apiKey) ]
            (mkChatBody (js "deepseek-chat")
               [ mkChatMessage (js "user") (prompt structure files) ]
               (js "0.7")))
         (fun r =>
            match r with
            | Throw e => Done (Throw e)
            | Normal resp =>
              if negb (ok resp) then
                Done (Throw (Error (js "API request failed: "
                                      ++ statusText resp)))
              else
                Done (cbind (json resp) (fun data =>
                      cbind (getProp data "choices") (fun choices =>
                      cbind (getIndex0 choices) (fun choice =>
                      cbind (getProp choice "message") (fun message =>
                      cbind (getProp message "content") parseReply)))))
            end)).

(** The source binds [apiKey] to the empty string literal. *)
Definition analyzeWithDeepSeek (structure : jsstring)
  (files : list (jsstring * jsstring)) : prog ProjectAnalysis :=
  analyzeWithKey (js "") structure files.

End Remote.

(** ** The record as an object of the store

    [parseAiResponse] allocates its [result] object on each call and the
    callback of [forEach] assigns into that object.  Here the objects live in
    a store indexed by locations, and a call returns the location of its
    record. *)

Module Store.

Section Store.

Variable unicodeLower : jsstring -> jsstring.

Definition alloc (o : ProjectAnalysis) (h : gmap nat ProjectAnalysis)
  : nat * gmap nat ProjectAnalysis :=
  let l := fresh (dom h) in (l, <[l := o]> h).

(** The callback, assigning into the object at [l]. *)
Definition processSectionAt (l : nat) (h : gmap nat ProjectAnalysis)
  (section : jsstring) : completion (gmap nat ProjectAnalysis) :=
  match h !! l with
  | None => Throw (TypeError "Cannot set properties of undefined")
  | Some result =>
      cbind (processSection unicodeLower result section)
            (fun result' => Normal (<[l := result']> h))
  end.

Definition parseAiResponse (rawText : jsstring) (h : gmap nat ProjectAnalysis)
  : completion (nat * gmap nat ProjectAnalysis) :=
  let (l, h1) := alloc emptyAnalysis h in
  let sections := split rawText (LF ++ LF) in
  cbind (forEach (processSectionAt l) h1 sections)
        (fun h2 => Normal (l, h2)).

End Store.

End Store.

(** ** The workspace on disk

    The scanner reads the workspace through [fs]: [readdir] and [stat] in
    [getDirectoryStructure], [existsSync] and [readFileSync] in
    [identifyKeyFiles].  A node is what these calls see at one path; the
    tree is finite (no cycle of links) and does not change during a run.
    An error held by a node stands for the error [fs] raises at that path;
    the message of Node names the path, so the errors of entries at
    different paths are never compared. *)

#[local] Set Warnings "-register-all".
Inductive fsnode : Type :=
| FsFile (content : completion jsstring)
| FsDir (readdirError : option jserror) (files : list (jsstring * fsnode))
| FsBroken (statError : jserror).

(** Errors of [fs]; the messages of Node also carry the path. *)
Definition enotdir : jserror := Error (js "ENOTDIR: not a directory, scandir").
Definition eisdir : jserror :=
  Error (js "EISDIR: illegal operation on a directory, read").
Definition enoent : jserror := Error (js "ENOENT: no such file or directory").

(** The [for] loop of [walk] over the names [readdir] returned; [walk] is the
    recursive call and [structure] the string built so far. *)
Fixpoint walkFiles (walk : fsnode -> completion jsstring)
  (files : list (jsstring * fsnode)) (structure : jsstring)
  : completion jsstring :=
  match files with
  | [] => Normal structure
  | (file, node) :: rest =>
    match node with
    | FsBroken e => Throw e
    | FsDir _ _ =>
        cbind (walk node) (fun sub =>
          walkFiles walk rest ((structure ++ file ++ js "/" ++ LF) ++ sub))
    | FsFile _ => walkFiles walk rest (structure ++ file ++ LF)
    end
  end.

Fixpoint walk (dir : fsnode) : completion jsstring :=
  match dir with
  | FsDir None files => walkFiles walk files []
  | FsDir (Some e) _ => Throw e
  | FsFile _ => Throw enotdir
  | FsBroken e => Throw e
  end.

Definition getDirectoryStructure (rootPath : fsnode) : completion jsstring :=
  walk rootPath.

(** The names of a directory tree in the order [walk] meets them, a
    directory with a slash at its end and followed by what it holds. *)
Fixpoint listingFiles (listing : fsnode -> list jsstring)
  (files : list (jsstring * fsnode)) : list jsstring :=
  match files with
  | [] => []
  | (file, node) :: rest =>
    match node with
    | FsDir _ _ =>
        (file ++ js "/") :: listing node ++ listingFiles listing rest
    | _ => file :: listingFiles listing rest
    end
  end.

Fixpoint listing (dir : fsnode) : list jsstring :=
  match dir with
  | FsDir _ files => listingFiles listing files
  | _ => []
  end.

(** Every entry below [dir] answers [stat], and every directory below it,
    [dir] included, answers [readdir]. *)
Fixpoint readableFiles (readable : fsnode -> bool)
  (files : list (jsstring * fsnode)) : bool :=
  match files with
  | [] => true
  | (_, node) :: rest =>
    match node with
    | FsFile _ => readableFiles readable rest
    | FsDir _ _ => readable node && readableFiles readable rest
    | FsBroken _ => false
    end
  end.

Fixpoint readable (dir : fsnode) : bool :=
  match dir with
  | FsDir None files => readableFiles readable files
  | _ => false
  end.

(** The allow-list of [identifyKeyFiles]. *)
Definition importantFiles : list jsstring :=
  [ js "package.json"; js "requirements.txt"; js "pom.xml";
    js "build.gradle"; js "Dockerfile"; js "README.md";
    js "docker-compose.yml"; js ".gitignore"; js "tsconfig.json";
    js "webpack.config.js" ].

Fixpoint lookupEntry (name : jsstring) (files : list (jsstring * fsnode))
  : option fsnode :=
  match files with
  | [] => None
  | (k, node) :: rest =>
      if bool_decide (k = name) then Some node else lookupEntry name rest
  end.

(** What is at [path.join(rootPath, file)]. *)
Definition entryAt (rootPath : fsnode) (file : jsstring) : option fsnode :=
  match rootPath with
  | FsDir _ files => lookupEntry file files
  | _ => None
  end.

(** [fs.existsSync]: false when the path cannot be reached. *)
Definition existsSync (rootPath : fsnode) (file : jsstring) : bool :=
  match entryAt rootPath file with
  | Some (FsFile _) | Some (FsDir _ _) => true
  | Some (FsBroken _) | None => false
  end.

(** [fs.readFileSync(path, 'utf-8')]. *)
Definition readFileSync (rootPath : fsnode) (file : jsstring)
  : completion jsstring :=
  match entryAt rootPath file with
  | Some (FsFile content) => content
  | Some (FsDir _ _) => Throw eisdir
  | Some (FsBroken e) => Throw e
  | None => Throw enoent
  end.

(** [obj[key] = v] on an object whose keys keep the order of insertion. *)
Fixpoint setProp (key v : jsstring) (obj : list (jsstring * jsstring))
  : list (jsstring * jsstring) :=
  match obj with
  | [] => [(key, v)]
  | (k, w) :: rest =>
      if bool_decide (k = key) then (k, v) :: rest
      else (k, w) :: setProp key v rest
  end.

(** The body of the loop of [identifyKeyFiles]. *)
Definition readKeyFile (rootPath : fsnode)
  (keyFiles : list (jsstring * jsstring)) (file : jsstring)
  : completion (list (jsstring * jsstring)) :=
  if existsSync rootPath file then
    cbind (readFileSync rootPath file)
          (fun content => Normal (setProp file content keyFiles))
  else Normal keyFiles.

Definition identifyKeyFiles (rootPath : fsnode)
  : completion (list (jsstring * jsstring)) :=
  forEach (readKeyFile rootPath) [] importantFiles.

(** ** The result page *)

(** The double quote. *)
Definition DQ : jsstring := [34].

(** The literal parts of the template of [showAnalysisResults], between the
    substitutions, character by character as the source file has them. *)
Definition htmlChunk0 : jsstring :=
  join LF
    [ js "<!DOCTYPE html>";
      js "    <html>";
      js "    <head>";
      js "        <style>";
      js "            body { padding: 20px; font-family: Arial, sans-serif; }";
      js "            h1 { color: #1a73e8; }";
      js "            .section { margin-bottom: 25px; }";
      js "            .badge { background: #e8f0fe; color: #1967d2; padding: 2px 8px; border-radius: 4px; margin: 2px; }";
      js "        </style>";
      js "    </head>";
      js "    <body>";
      js "        <h1>" ].

Definition htmlChunk1 : jsstring :=
  join LF
    [ js "</h1>";
      js "        ";
      js "        <div class=" ++ DQ ++ js "section" ++ DQ ++ js ">";
      js "            <h3>" ++ [63743; 252; 236; 246] ++ js " Tech Stack</h3>";
      js "            " ].

Definition htmlChunk2 : jsstring :=
  join LF
    [ js "";
      js "        </div>";
      js "";
      js "        <div class=" ++ DQ ++ js "section" ++ DQ ++ js ">";
      js "            <h3>" ++ [63743; 252; 237; 176] ++ js " Project Ideas</h3>";
      js "            <ul>" ].

Definition htmlChunk3 : jsstring :=
  join LF
    [ js "</ul>";
      js "        </div>";
      js "";
      js "        <div class=" ++ DQ ++ js "section" ++ DQ ++ js ">";
      js "            <h3>" ++ [63743; 252; 236; 197] ++ js " Structure Analysis</h3>";
      js "            <pre>" ].

Definition htmlChunk4 : jsstring :=
  join LF
    [ js "</pre>";
      js "        </div>";
      js "";
      js "        <div class=" ++ DQ ++ js "section" ++ DQ ++ js ">";
      js "            <h3>" ++ [63743; 252; 236; 249] ++ js " Summary</h3>";
      js "            <p>" ].

Definition htmlChunk5 : jsstring :=
  join LF
    [ js "</p>";
      js "        </div>";
      js "    </body>";
      js "    </html>" ].

Definition badge (t : jsstring) : jsstring :=
  js "<span class=" ++ DQ ++ js "badge" ++ DQ ++ js ">" ++ t ++ js "</span>".

Definition listItem (i : jsstring) : jsstring :=
  js "<li>" ++ i ++ js "</li>".

(** The value assigned to [panel.webview.html]. *)
Definition html (analysis : ProjectAnalysis) : jsstring :=
  htmlChunk0 ++ projectName analysis ++
  htmlChunk1 ++ join (js " ") (map badge (techStack analysis)) ++
  htmlChunk2 ++ join (js "") (map listItem (projectIdeas analysis)) ++
  htmlChunk3 ++ folderStructureAnalysis analysis ++
  htmlChunk4 ++ summary analysis ++
  htmlChunk5.

(** ** The command

    What the extension does to the editor and the network, in order. *)

Inductive action : Type :=
| ShowErrorMessage (msg : jsstring)
| WithProgress (title : jsstring)
| ProgressReport (msg : jsstring)
| Remote (e : event)
| CreateWebviewPanel (viewType title : jsstring)
| SetHtml (page : jsstring)
| TaskSettled (outcome : completion unit).

(** A computation that acts and then completes. *)
Definition act (A : Type) : Type := list action * completion A.

Definition emit (a : action) : act unit := ([a], Normal tt).

Definition await {A} (c : completion A) : act A := ([], c).

Definition abind {A B} (m : act A) (k : A -> act B) : act B :=
  match m with
  | (t, Normal a) => let (t', c) := k a in (t ++ t', c)
  | (t, Throw e) => (t, Throw e)
  end.

(** An awaited call of [analyzeWithDeepSeek] against the network. *)
Definition remote {A} (net : network) (p : prog A) : act A :=
  let (t, c) := run net p in (map Remote t, c).

(** [try { m } catch (error) { h error }]. *)
Definition tryCatch (m : act unit) (h : jserror -> act unit) : act unit :=
  match m with
  | (t, Throw e) => let (t', c) := h e in (t ++ t', c)
  | (_, Normal _) => m
  end.

(** A call of an async function whose promise is dropped: the caller goes on
    normally whatever the outcome, which [TaskSettled] records. *)
Definition detached (task : act unit) : act unit :=
  let (t, c) := task in (t ++ [TaskSettled c], Normal tt).

(** [error.message]. *)
Definition errorMessage (e : jserror) : jsstring :=
  match e with
  | TypeError msg => js msg
  | Error msg => msg
  end.

Definition showAnalysisResults (analysis : ProjectAnalysis) : act unit :=
  abind (emit (CreateWebviewPanel (js "projectAnalysis")
                                  (js "Project Analysis")))
        (fun _ => emit (SetHtml (html analysis))).

(** The callback given to [withProgress]; [analyze] is the call of step 3. *)
Definition progressTask
  (analyze : jsstring -> list (jsstring * jsstring) -> prog ProjectAnalysis)
  (net : network) (workspaceFolder : fsnode) : act unit :=
  abind (emit (ProgressReport (js "Scanning project structure..."))) (fun _ =>
  abind (await (getDirectoryStructure workspaceFolder)) (fun structure =>
  abind (emit (ProgressReport (js "Identifying key files..."))) (fun _ =>
  abind (await (identifyKeyFiles workspaceFolder)) (fun keyFiles =>
  abind (emit (ProgressReport (js "Consulting DeepSeek AI..."))) (fun _ =>
  abind (remote net (analyze structure keyFiles)) (fun analysis =>
  showAnalysisResults analysis)))))).

(** The handler of [autopilot.analyzeProject].  [workspaceFolders] is
    [undefined] or an array; [withProgress] shows the title and runs the
    callback, and the handler does not await it. *)
Definition commandHandler
  (analyze : jsstring -> list (jsstring * jsstring) -> prog ProjectAnalysis)
  (net : network) (workspaceFolders : option (list fsnode)) : act unit :=
  tryCatch
    (match workspaceFolders ≫= head with
     | None => emit (ShowErrorMessage (js "No workspace folder found!"))
     | Some workspaceFolder =>
         abind (emit (WithProgress (js "Analyzing project..."))) (fun _ =>
         detached (progressTask analyze net workspaceFolder))
     end)
    (fun error =>
       emit (ShowErrorMessage (js "Analysis failed: " ++ errorMessage error))).

Section Command.

Variable unicodeLower : jsstring -> jsstring.
Variable stringifyFiles : list (jsstring * jsstring) -> jsstring.

(** The command as the source registers it. *)
Definition analyzeProject (net : network)
  (workspaceFolders : option (list fsnode)) : act unit :=
  commandHandler (analyzeWithDeepSeek unicodeLower stringifyFiles)
                 net workspaceFolders.

End Command.

Definition isShowErrorMessage (a : action) : bool :=
  match a with
  | ShowErrorMessage _ => true
  | _ => false
  end.

Definition isRequest (a : action) : bool :=
  match a with
  | Remote (EvFetch _ _) => true
  | _ => false
  end.

Definition isPanel (a : action) : bool :=
  match a with
  | CreateWebviewPanel _ _ | SetHtml _ => true
  | _ => false
  end.

(** * Properties *)

(** ** The string methods *)

Lemma split_from_cons sep s : forall skip piece,
  exists x l, split_from sep skip piece s = x :: l.
Proof.
  induction s as [|c s IH]; intros skip piece; simpl.
  - eauto.
  - destruct skip as [|k]; [|apply IH].
    destruct (startsWith sep (c :: s)); [eauto | apply IH].
Qed.

(** [split] with a separator that is not empty yields at least one
    substring, so [lines[0]] is always a string. *)
Lemma split_cons s c sep : exists x l, split s (c :: sep) = x :: l.
Proof. unfold split. apply split_from_cons. Qed.

Lemma includes_cons_false c s pat :
  includes (c :: s) pat = false ->
  startsWith pat (c :: s) = false /\ includes s pat = false.
Proof. simpl. intros H. apply orb_false_elim in H. exact H. Qed.

Lemma split_from_absent sep s : forall piece,
  includes s sep = false -> split_from sep 0 piece s = [rev piece ++ s].
Proof.
  induction s as [|c s IH]; intros piece H; simpl.
  - by rewrite app_nil_r.
  - apply includes_cons_false in H as [H1 H2].
    rewrite H1, (IH _ H2). simpl. by rewrite <- app_assoc.
Qed.

(** A text in which the separator does not occur is its own single part. *)
Lemma split_absent s c sep :
  includes s (c :: sep) = false -> split s (c :: sep) = [s].
Proof. intros H. unfold split. by rewrite split_from_absent. Qed.

Lemma trimStart_blank s : forallb isWhiteSpace s = true -> trimStart s = [].
Proof.
  induction s as [|c s IH]; simpl; [done|].
  intros H. apply andb_prop in H as [Hc Hs]. rewrite Hc. auto.
Qed.

Lemma trim_blank s : forallb isWhiteSpace s = true -> trim s = [].
Proof. intros H. unfold trim, trimEnd. by rewrite (trimStart_blank s H). Qed.

Lemma startsWith_marker_head c s :
  startsWith (js "- ") (c :: s) = true -> c = 45.
Proof.
  cbn. intros H. apply andb_prop in H as [H _].
  apply N.eqb_eq in H. symmetry. exact H.
Qed.

(** The methods on small inputs, as a JavaScript console shows them. *)

Example split_blank_lines :
  split (text ["a"; ""; ""; "b"; ""; ""]) (LF ++ LF)
  = [js "a"; LF ++ js "b"; js ""].
Proof. reflexivity. Qed.

Example split_empty_text : split (js "") (LF ++ LF) = [js ""].
Proof. reflexivity. Qed.

Example split_trailing_break : split (text ["x"; "y"; ""]) LF = [js "x"; js "y"; js ""].
Proof. reflexivity. Qed.

Example trim_spaces_tabs : trim ([9; 32; 160] ++ js "a b" ++ [13; 32]) = js "a b".
Proof. reflexivity. Qed.

Example toLowerCase_ascii unicodeLower :
  toLowerCase unicodeLower (js "## Tech STACK_1") = js "## tech stack_1".
Proof. reflexivity. Qed.

Example toLowerCase_beyond_ascii unicodeLower :
  toLowerCase unicodeLower (js "TECH STAC" ++ [8490])
  = unicodeLower (js "TECH STAC" ++ [8490]).
Proof. reflexivity. Qed.

Example includes_inside : includes (js "1. project name:") (js "project name") = true.
Proof. reflexivity. Qed.

(** ** The loop *)

Lemma forEach_app {A S} (f : S -> A -> completion S) l1 : forall st l2,
  forEach f st (l1 ++ l2) = cbind (forEach f st l1) (fun st' => forEach f st' l2).
Proof.
  induction l1 as [|x l1 IH]; intros st l2; simpl; [done|].
  destruct (f st x); simpl; [apply IH | done].
Qed.

(** ** The callback follows the rule table *)

Section ParserFacts.

Variable unicodeLower : jsstring -> jsstring.

Abbreviation lower := (toLowerCase unicodeLower).
Abbreviation step := (processSection unicodeLower).

Lemma processSection_rules r section :
  step r section =
  Normal (match category (lower (headingOf section)) with
          | Some f => assignField f (bodyOf section) r
          | None => r
          end).
Proof.
  unfold processSection, headingOf, bodyOf, category, priority, LF.
  destruct (split_cons section 10 []) as (x & l & ->). simpl.
  repeat (match goal with |- context [includes ?a ?b] =>
            destruct (includes a b) end; simpl; try reflexivity).
Qed.

Lemma category_None header :
  category header = None <-> forall f, keywordMatch f header = false.
Proof.
  unfold category, priority. cbn [List.find]. split.
  - destruct (keywordMatch FProjectName header) eqn:E1; [done|].
    destruct (keywordMatch FTechStack header) eqn:E2; [done|].
    destruct (keywordMatch FProjectIdeas header) eqn:E3; [done|].
    destruct (keywordMatch FFolderStructure header) eqn:E4; [done|].
    destruct (keywordMatch FSummary header) eqn:E5; [done|].
    intros _ f. by destruct f.
  - intros H. by rewrite !H.
Qed.

Lemma getField_assign_same f body r :
  getField f (assignField f body r) = sectionValue f body.
Proof. by destruct f. Qed.

Lemma getField_assign_other f g body r :
  f <> g -> getField g (assignField f body r) = getField g r.
Proof. by destruct f, g. Qed.

(** One call of the callback leaves a field alone unless the section is of
    the field's category. *)
Lemma processSection_keeps r section r' f :
  step r section = Normal r' ->
  category (lower (headingOf section)) <> Some f ->
  getField f r' = getField f r.
Proof.
  rewrite processSection_rules. intros [= <-] Hc.
  destruct (category _) as [g|]; [|done].
  apply getField_assign_other. congruence.
Qed.

Lemma processSection_stores r section r' f :
  step r section = Normal r' ->
  category (lower (headingOf section)) = Some f ->
  getField f r' = sectionValue f (bodyOf section).
Proof.
  rewrite processSection_rules. intros [= <-] ->.
  apply getField_assign_same.
Qed.

Lemma forEach_normal sections : forall r,
  exists r', forEach step r sections = Normal r'.
Proof.
  induction sections as [|s l IH]; intros r; simpl; [eauto|].
  rewrite processSection_rules. simpl. apply IH.
Qed.

Lemma forEach_keeps f sections : forall r r',
  forEach step r sections = Normal r' ->
  (forall s, s ∈ sections -> category (lower (headingOf s)) <> Some f) ->
  getField f r' = getField f r.
Proof.
  induction sections as [|s l IH]; intros r r'; simpl.
  - by intros [= <-].
  - destruct (step r s) as [r1|e] eqn:E; simpl; [|done].
    intros Hl Hno. rewrite (IH _ _ Hl).
    + apply (processSection_keeps _ _ _ _ E), Hno. by left.
    + intros s' Hs'. apply Hno. by right.
Qed.

(** The value of a field after the loop comes from the last section of the
    field's category. *)
Lemma forEach_last_write f pre s post r0 r :
  forEach step r0 (pre ++ s :: post) = Normal r ->
  category (lower (headingOf s)) = Some f ->
  (forall s', s' ∈ post -> category (lower (headingOf s')) <> Some f) ->
  getField f r = sectionValue f (bodyOf s).
Proof.
  rewrite forEach_app. destruct (forEach step r0 pre) as [r1|e]; [|done].
  simpl. destruct (step r1 s) as [r2|e] eqn:E; simpl; [|done].
  intros Hpost Hs Hno. rewrite (forEach_keeps _ _ _ _ Hpost Hno).
  by apply (processSection_stores _ _ _ _ E).
Qed.

(** Every field of the record after the loop is the one the loop started
    with or was stored for a section of its category. *)
Lemma forEach_origin f sections : forall r0 r,
  forEach step r0 sections = Normal r ->
  getField f r = getField f r0 \/
  exists s, s ∈ sections /\ category (lower (headingOf s)) = Some f /\
            getField f r = sectionValue f (bodyOf s).
Proof.
  induction sections as [|s l IH]; intros r0 r; simpl.
  - intros [= <-]. by left.
  - destruct (step r0 s) as [r1|e] eqn:E; simpl; [|done].
    intros Hl. destruct (IH _ _ Hl) as [Hk | (s' & Hin & Hc & Hv)].
    + destruct (decide (category (lower (headingOf s)) = Some f)) as [Hc|Hc].
      * right. exists s. split; [by left|]. split; [done|].
        rewrite Hk. by apply (processSection_stores _ _ _ _ E).
      * left. rewrite Hk. by apply (processSection_keeps _ _ _ _ E).
    + right. exists s'. split; [by right|]. done.
Qed.

End ParserFacts.

(** ** The store *)

Lemma forEach_at unicodeLower l sections : forall (h : gmap nat ProjectAnalysis) r0,
  h !! l = Some r0 ->
  forEach (Store.processSectionAt unicodeLower l) h sections =
  cbind (forEach (processSection unicodeLower) r0 sections)
        (fun r => Normal (<[l := r]> h)).
Proof.
  induction sections as [|s rest IH]; intros h r0 Hl; simpl.
  - by rewrite insert_id.
  - unfold Store.processSectionAt at 1. rewrite Hl.
    rewrite processSection_rules. simpl.
    erewrite IH by apply lookup_insert_eq.
    destruct (forEach _ _ rest); simpl; [|done].
    by rewrite insert_insert_eq.
Qed.

(** A call allocates a fresh location and leaves there the record the
    state-passing parser computes; the rest of the store is as before. *)
Lemma store_parse unicodeLower rawText (h : gmap nat ProjectAnalysis) :
  exists r, parseAiResponse unicodeLower rawText = Normal r /\
    Store.parseAiResponse unicodeLower rawText h
    = Normal (fresh (dom h), <[fresh (dom h) := r]> h).
Proof.
  unfold Store.parseAiResponse, Store.alloc, parseAiResponse.
  destruct (forEach_normal unicodeLower (split rawText (LF ++ LF)) emptyAnalysis)
    as [r Hr].
  exists r. split; [done|].
  erewrite forEach_at by apply lookup_insert_eq.
  rewrite Hr. simpl. by rewrite insert_insert_eq.
Qed.

Lemma fresh_not_allocated (h : gmap nat ProjectAnalysis) :
  h !! fresh (dom h) = None.
Proof. apply not_elem_of_dom, is_fresh. Qed.

(** ** Which rule a heading selects *)

Lemma category_projectName header :
  category header = Some FProjectName <->
  includes header (js "project name") = true.
Proof.
  unfold category, priority. cbn [List.find keywordMatch].
  destruct (includes header (js "project name")); [done|].
  split; [|done]. repeat case_match; done.
Qed.

Lemma category_techStack header :
  category header = Some FTechStack <->
  includes header (js "project name") = false /\
  includes header (js "tech stack") = true.
Proof.
  unfold category, priority. cbn [List.find keywordMatch].
  destruct (includes header (js "project name")).
  { split; [done | by intros [? _]]. }
  destruct (includes header (js "tech stack")); [done|].
  split; [repeat case_match; done | by intros [_ ?]].
Qed.

Lemma category_Some header f :
  category header = Some f -> keywordMatch f header = true.
Proof.
  unfold category. intros H. by apply List.find_some in H as [_ H].
Qed.

(** * The documented properties *)

(** C1. For every input string [parseAiResponse] returns a record and never
    throws.  Whatever the input, each field of the record is at its default
    or holds what the rule of its category stored for a section of the
    input. *)
Theorem parseAiResponse_total (unicodeLower : jsstring -> jsstring)
  (rawText : jsstring) :
  exists r, parseAiResponse unicodeLower rawText = Normal r /\
    forall f,
      getField f r = getField f emptyAnalysis \/
      exists s, s ∈ split rawText (LF ++ LF) /\
        category (toLowerCase unicodeLower (headingOf s)) = Some f /\
        getField f r = sectionValue f (bodyOf s).
Proof.
  unfold parseAiResponse.
  destruct (forEach_normal unicodeLower (split rawText (LF ++ LF))
              emptyAnalysis) as [r Hr].
  exists r. split; [done|].
  intros f. by apply (forEach_origin unicodeLower f _ _ _ Hr).
Qed.

(** C2, as the documentation states it, fails: a text without a blank line is
    one section, and that section is parsed like any other.  The text
    ["Project Name\nFoo"] has no blank line and yields [projectName = "Foo"]. *)
Lemma no_blank_line_counterexample :
  includes (text ["Project Name"; "Foo"]) (LF ++ LF) = false /\
  forall unicodeLower,
    parseAiResponse unicodeLower (text ["Project Name"; "Foo"])
    = Normal (set_projectName (js "Foo") emptyAnalysis) /\
    parseAiResponse unicodeLower (text ["Project Name"; "Foo"])
    <> Normal emptyAnalysis.
Proof. split; [reflexivity|]. intros U. split; [reflexivity|]. discriminate. Qed.

(** C2, amended.  For a text without two consecutive line breaks whose first
    line, in lower case, contains none of the keywords, every field of the
    result is at its default. *)
Theorem no_blank_line_defaults (unicodeLower : jsstring -> jsstring)
  (rawText : jsstring) :
  includes rawText (LF ++ LF) = false ->
  (forall f, keywordMatch f (toLowerCase unicodeLower (headingOf rawText))
             = false) ->
  parseAiResponse unicodeLower rawText = Normal emptyAnalysis.
Proof.
  intros Hsep Hkw. unfold parseAiResponse.
  change (LF ++ LF) with (10 :: LF) in *.
  rewrite (split_absent _ _ _ Hsep). simpl.
  rewrite processSection_rules.
  apply category_None in Hkw. by rewrite Hkw.
Qed.

Lemma no_blank_line_defaults_witness :
  parseAiResponse asciiOnlyLower (text ["Random Header"; "some text"])
  = Normal emptyAnalysis.
Proof.
  apply no_blank_line_defaults.
  - reflexivity.
  - intros f. destruct f; reflexivity.
Defined.

(** C3. A section whose heading, in lower case, contains ["project name"]
    makes the callback set [projectName] to the body lines joined with
    single spaces and trimmed, and nothing else; when no later section of
    the text has such a heading, this is the [projectName] of the result.
    For ["Project Name\nFoo"] the result has [projectName = "Foo"]. *)
Theorem projectName_section (unicodeLower : jsstring -> jsstring) :
  (forall r section,
     includes (toLowerCase unicodeLower (headingOf section))
              (js "project name") = true ->
     processSection unicodeLower r section
     = Normal (set_projectName (trim (join (js " ") (bodyOf section))) r)) /\
  (forall rawText pre s post,
     split rawText (LF ++ LF) = pre ++ s :: post ->
     includes (toLowerCase unicodeLower (headingOf s))
              (js "project name") = true ->
     (forall s', s' ∈ post ->
        includes (toLowerCase unicodeLower (headingOf s'))
                 (js "project name") = false) ->
     exists res, parseAiResponse unicodeLower rawText = Normal res /\
       projectName res = trim (join (js " ") (bodyOf s))) /\
  parseAiResponse unicodeLower (text ["Project Name"; "Foo"])
  = Normal (set_projectName (js "Foo") emptyAnalysis).
Proof.
  split; [|split].
  - intros r section H. rewrite processSection_rules.
    apply category_projectName in H. by rewrite H.
  - intros rawText pre s post Hsplit Hs Hpost. unfold parseAiResponse.
    rewrite Hsplit.
    destruct (forEach_normal unicodeLower (pre ++ s :: post) emptyAnalysis)
      as [res Hres].
    exists res. split; [done|].
    assert (getField FProjectName res
            = sectionValue FProjectName (bodyOf s)) as Hv.
    { apply (forEach_last_write unicodeLower _ _ _ _ _ _ Hres).
      - by apply category_projectName.
      - intros s' Hin Hc. apply category_projectName in Hc.
        rewrite (Hpost _ Hin) in Hc. done. }
    by injection Hv.
  - reflexivity.
Qed.

Lemma projectName_section_witness :
  processSection asciiOnlyLower emptyAnalysis
    (text ["1. PROJECT NAME:"; "  my"; "app  "])
  = Normal (set_projectName (js "my app") emptyAnalysis).
Proof.
  apply (proj1 (projectName_section asciiOnlyLower)).
  reflexivity.
Defined.

(** C4, as the documentation states it, fails: the rules are tried in order,
    so a heading that contains ["tech stack"] and also ["project name"]
    belongs to the first rule and [techStack] is not set. *)
Lemma techStack_counterexample :
  includes (toLowerCase asciiOnlyLower
              (headingOf (text ["Project Name and Tech Stack"; "- Go"])))
           (js "tech stack") = true /\
  map listEntry (bodyOf (text ["Project Name and Tech Stack"; "- Go"]))
  = [js "Go"] /\
  forall unicodeLower,
    exists res,
      parseAiResponse unicodeLower
        (text ["Project Name and Tech Stack"; "- Go"]) = Normal res /\
      techStack res = [] /\ projectName res = js "- Go".
Proof.
  split; [reflexivity|]. split; [reflexivity|].
  intros U. eexists. split; [reflexivity|]. split; reflexivity.
Qed.

(** C4, amended.  A section whose heading, in lower case, contains
    ["tech stack"] and not ["project name"] makes the callback set
    [techStack] to one entry per body line, the line with a leading ["- "]
    stripped and then trimmed; a blank body line gives an empty entry and is
    not filtered out.  When no later section is of this category, this is
    the [techStack] of the result.  For ["Tech Stack\n- Go\n- Docker"] the
    result has [techStack = ["Go"; "Docker"]]. *)
Theorem techStack_section (unicodeLower : jsstring -> jsstring) :
  (forall r section,
     includes (toLowerCase unicodeLower (headingOf section))
              (js "project name") = false ->
     includes (toLowerCase unicodeLower (headingOf section))
              (js "tech stack") = true ->
     processSection unicodeLower r section
     = Normal (set_techStack (map listEntry (bodyOf section)) r) /\
     length (map listEntry (bodyOf section)) = length (bodyOf section)) /\
  (forall line, forallb isWhiteSpace line = true -> listEntry line = []) /\
  (forall rawText pre s post,
     split rawText (LF ++ LF) = pre ++ s :: post ->
     includes (toLowerCase unicodeLower (headingOf s))
              (js "project name") = false ->
     includes (toLowerCase unicodeLower (headingOf s))
              (js "tech stack") = true ->
     (forall s', s' ∈ post ->
        category (toLowerCase unicodeLower (headingOf s'))
        <> Some FTechStack) ->
     exists res, parseAiResponse unicodeLower rawText = Normal res /\
       techStack res = map listEntry (bodyOf s)) /\
  parseAiResponse unicodeLower (text ["Tech Stack"; "- Go"; "- Docker"])
  = Normal (set_techStack [js "Go"; js "Docker"] emptyAnalysis) /\
  parseAiResponse unicodeLower
    (text ["Tech Stack"; "- Go"; "   "; "- Docker"; ""])
  = Normal (set_techStack [js "Go"; js ""; js "Docker"; js ""] emptyAnalysis).
Proof.
  split; [|split; [|split; [|split]]].
  - intros r section Hpn Hts. split; [|apply length_map].
    rewrite processSection_rules.
    by rewrite (proj2 (category_techStack _) (conj Hpn Hts)).
  - intros line Hblank. unfold listEntry, replaceMarker.
    destruct (startsWith (js "- ") line) eqn:E; [|by apply trim_blank].
    destruct line as [|c line]; [done|].
    apply startsWith_marker_head in E as ->. done.
  - intros rawText pre s post Hsplit Hpn Hts Hpost. unfold parseAiResponse.
    rewrite Hsplit.
    destruct (forEach_normal unicodeLower (pre ++ s :: post) emptyAnalysis)
      as [res Hres].
    exists res. split; [done|].
    assert (getField FTechStack res
            = sectionValue FTechStack (bodyOf s)) as Hv.
    { apply (forEach_last_write unicodeLower _ _ _ _ _ _ Hres); [|done].
      by apply category_techStack. }
    by injection Hv.
  - reflexivity.
  - reflexivity.
Qed.

Lemma techStack_section_witness :
  processSection asciiOnlyLower emptyAnalysis
    (text ["## Tech Stack"; "- TypeScript"; "-  esbuild "])
  = Normal (set_techStack [js "TypeScript"; js "esbuild"] emptyAnalysis).
Proof.
  apply (proj1 (techStack_section asciiOnlyLower));
    reflexivity.
Defined.

(** C5. When several sections of a text are of the same category, the field
    of the result holds what the last of them stored, and only that.  For
    two sections headed ["Summary"] with the bodies ["First"] and then
    ["Second"], the result has [summary = "Second"]. *)
Theorem last_write_wins (unicodeLower : jsstring -> jsstring) :
  (forall rawText pre s post f,
     split rawText (LF ++ LF) = pre ++ s :: post ->
     category (toLowerCase unicodeLower (headingOf s)) = Some f ->
     (forall s', s' ∈ post ->
        category (toLowerCase unicodeLower (headingOf s')) <> Some f) ->
     exists res, parseAiResponse unicodeLower rawText = Normal res /\
       getField f res = sectionValue f (bodyOf s)) /\
  parseAiResponse unicodeLower
    (text ["Summary"; "First"; ""; "Summary"; "Second"])
  = Normal (set_summary (js "Second") emptyAnalysis).
Proof.
  split; [|reflexivity].
  intros rawText pre s post f Hsplit Hs Hpost. unfold parseAiResponse.
  rewrite Hsplit.
  destruct (forEach_normal unicodeLower (pre ++ s :: post) emptyAnalysis)
    as [res Hres].
  exists res. split; [done|].
  by apply (forEach_last_write unicodeLower _ _ _ _ _ _ Hres).
Qed.

Lemma last_write_wins_witness :
  exists res,
    parseAiResponse asciiOnlyLower
      (text ["Tech stack"; "- Go"; ""; "Summary"; "x"; ""; "TECH STACK"; "- Rust"])
    = Normal res /\
    getField FTechStack res = Items [js "Rust"].
Proof.
  apply (proj1 (last_write_wins asciiOnlyLower)
           (text ["Tech stack"; "- Go"; ""; "Summary"; "x"; "";
                  "TECH STACK"; "- Rust"])
           [text ["Tech stack"; "- Go"]; text ["Summary"; "x"]]
           (text ["TECH STACK"; "- Rust"]) [] FTechStack).
  - reflexivity.
  - reflexivity.
  - intros s' Hin. by apply elem_of_nil in Hin.
Defined.

Lemma find_first {A} (p : A -> bool) l x :
  List.find p l = Some x ->
  exists pre post, l = pre ++ x :: post /\ p x = true /\
                   forall y, y ∈ pre -> p y = false.
Proof.
  induction l as [|a l IH]; simpl; [done|].
  destruct (p a) eqn:E.
  - intros [= ->]. exists [], l. split; [done|]. split; [done|].
    intros y Hy. by apply elem_of_nil in Hy.
  - intros H. destruct (IH H) as (pre & post & -> & Hx & Hpre).
    exists (a :: pre), post. split; [done|]. split; [done|].
    intros y Hy. apply elem_of_cons in Hy as [->|Hy]; auto.
Qed.

(** C6. The callback tests the heading, in lower case, against the keywords
    in the order project name, tech stack, project purpose or project ideas,
    folder structure, summary; the first rule whose keyword occurs stores
    the body in its field and every other field of the record stays as it
    was.  A heading with both ["project name"] and ["summary"] sets
    [projectName] only. *)
Theorem first_match_wins (unicodeLower : jsstring -> jsstring) :
  (forall r section,
     processSection unicodeLower r section
     = Normal (match category (toLowerCase unicodeLower (headingOf section))
               with
               | Some f => assignField f (bodyOf section) r
               | None => r
               end)) /\
  (forall header f,
     category header = Some f ->
     exists earlier later,
       priority = earlier ++ f :: later /\
       keywordMatch f header = true /\
       forall g, g ∈ earlier -> keywordMatch g header = false) /\
  (forall r section,
     exists res,
       processSection unicodeLower r section = Normal res /\
       match category (toLowerCase unicodeLower (headingOf section)) with
       | Some f =>
           getField f res = sectionValue f (bodyOf section) /\
           forall g, g <> f -> getField g res = getField g r
       | None => forall g, getField g res = getField g r
       end) /\
  (forall r section,
     includes (toLowerCase unicodeLower (headingOf section))
              (js "project name") = true ->
     includes (toLowerCase unicodeLower (headingOf section))
              (js "summary") = true ->
     exists res,
       processSection unicodeLower r section = Normal res /\
       projectName res = trim (join (js " ") (bodyOf section)) /\
       techStack res = techStack r /\
       projectIdeas res = projectIdeas r /\
       folderStructureAnalysis res = folderStructureAnalysis r /\
       summary res = summary r) /\
  parseAiResponse unicodeLower (text ["Project Name and Summary"; "Foo"])
  = Normal (mkProjectAnalysis (js "Foo") [] [] [] []).
Proof.
  split; [|split; [|split; [|split]]].
  - intros r section. apply processSection_rules.
  - intros header f H. by apply find_first in H.
  - intros r section. rewrite processSection_rules. eexists. split; [done|].
    destruct (category _) as [f|]; [|done]. split.
    + apply getField_assign_same.
    + intros g Hg. by apply getField_assign_other.
  - intros r section Hpn _. rewrite processSection_rules.
    apply category_projectName in Hpn. rewrite Hpn.
    eexists. split; [done|]. by repeat split.
  - reflexivity.
Qed.

Lemma first_match_wins_witness :
  exists res,
    processSection asciiOnlyLower
      (mkProjectAnalysis (js "old") [js "Go"] [] (js "src/") (js "kept"))
      (text ["Summary of the Project Name"; "my"; "app "])
    = Normal res /\
    projectName res = js "my app" /\
    techStack res = [js "Go"] /\
    projectIdeas res = [] /\
    folderStructureAnalysis res = js "src/" /\
    summary res = js "kept".
Proof.
  apply (proj1 (proj2 (proj2 (proj2 (first_match_wins asciiOnlyLower))))
           (mkProjectAnalysis (js "old") [js "Go"] [] (js "src/") (js "kept"))
           (text ["Summary of the Project Name"; "my"; "app "]));
    reflexivity.
Defined.

(** C7. A section whose heading, in lower case, contains none of the keywords
    changes no field and throws nothing: the result of the text is the one
    of the text without that section.  A field for which the text has no
    section keeps its default.  For ["Random Header\nsome text"] every field
    is at its default. *)
Theorem unmatched_section_ignored (unicodeLower : jsstring -> jsstring) :
  (forall r section,
     (forall f, keywordMatch f (toLowerCase unicodeLower (headingOf section))
                = false) ->
     processSection unicodeLower r section = Normal r) /\
  (forall r pre s post,
     (forall f, keywordMatch f (toLowerCase unicodeLower (headingOf s))
                = false) ->
     forEach (processSection unicodeLower) r (pre ++ s :: post)
     = forEach (processSection unicodeLower) r (pre ++ post)) /\
  (forall rawText f,
     (forall s, s ∈ split rawText (LF ++ LF) ->
        category (toLowerCase unicodeLower (headingOf s)) <> Some f) ->
     exists res, parseAiResponse unicodeLower rawText = Normal res /\
       getField f res = getField f emptyAnalysis) /\
  parseAiResponse unicodeLower (text ["Random Header"; "some text"])
  = Normal emptyAnalysis.
Proof.
  assert (forall r section,
     (forall f, keywordMatch f (toLowerCase unicodeLower (headingOf section))
                = false) ->
     processSection unicodeLower r section = Normal r) as Hstep.
  { intros r section H. rewrite processSection_rules.
    apply category_None in H. by rewrite H. }
  split; [exact Hstep|]. split; [|split].
  - intros r pre s post H. rewrite !forEach_app.
    destruct (forEach _ r pre) as [r1|e]; simpl; [|done].
    by rewrite (Hstep _ _ H).
  - intros rawText f Hno. unfold parseAiResponse.
    destruct (forEach_normal unicodeLower (split rawText (LF ++ LF))
                emptyAnalysis) as [res Hres].
    exists res. split; [done|].
    by apply (forEach_keeps unicodeLower f _ _ _ Hres).
  - reflexivity.
Qed.

Lemma unmatched_section_ignored_witness :
  processSection asciiOnlyLower (set_summary (js "kept") emptyAnalysis)
    (text ["Random Header"; "some text"])
  = Normal (set_summary (js "kept") emptyAnalysis).
Proof.
  apply (proj1 (unmatched_section_ignored asciiOnlyLower)).
  intros f. destruct f; reflexivity.
Defined.

(** C8. Two calls on the same text, one after the other in any store, end
    normally with two distinct record objects that hold the same fields;
    the second call changes neither the record of the first nor any object
    that was in the store before, and the fields are those the state-passing
    parser computes, whatever the store. *)
Theorem parse_twice_equal (unicodeLower : jsstring -> jsstring)
  (rawText : jsstring) (h : gmap nat ProjectAnalysis) :
  exists l1 h1 l2 h2 res,
    Store.parseAiResponse unicodeLower rawText h = Normal (l1, h1) /\
    Store.parseAiResponse unicodeLower rawText h1 = Normal (l2, h2) /\
    l1 <> l2 /\
    parseAiResponse unicodeLower rawText = Normal res /\
    h1 !! l1 = Some res /\ h2 !! l1 = Some res /\ h2 !! l2 = Some res /\
    forall l, is_Some (h !! l) -> h1 !! l = h !! l /\ h2 !! l = h !! l.
Proof.
  destruct (store_parse unicodeLower rawText h) as (res & Hp & H1).
  pose proof (fresh_not_allocated h) as Hf1.
  set (l1 := fresh (dom h)) in *. set (h1 := <[l1 := res]> h) in *.
  destruct (store_parse unicodeLower rawText h1) as (res' & Hp' & H2).
  assert (res' = res) as -> by congruence.
  pose proof (fresh_not_allocated h1) as Hf2.
  set (l2 := fresh (dom h1)) in *.
  assert (h1 !! l1 = Some res) as Hl1 by apply lookup_insert_eq.
  assert (l1 <> l2) as Hne by congruence.
  assert (forall l, is_Some (h !! l) -> l1 <> l) as Hold1.
  { intros l [x Hx] <-. congruence. }
  assert (forall l, is_Some (h !! l) -> h1 !! l = h !! l) as Hkeep1.
  { intros l Hl. unfold h1. rewrite lookup_insert_ne; [done|by apply Hold1]. }
  exists l1, h1, l2, (<[l2 := res]> h1), res.
  repeat split; try done.
  - by rewrite lookup_insert_ne.
  - apply lookup_insert_eq.
  - by apply Hkeep1.
  - rewrite lookup_insert_ne; [by apply Hkeep1|].
    intros <-. rewrite (Hkeep1 _ H) in Hf2. destruct H as [x Hx]. congruence.
Qed.

Lemma parse_twice_equal_witness :
  exists l1 h1 l2 h2 res,
    Store.parseAiResponse asciiOnlyLower (text ["Summary"; "ok"])
      {[ 0%nat := emptyAnalysis ]} = Normal (l1, h1) /\
    Store.parseAiResponse asciiOnlyLower (text ["Summary"; "ok"]) h1
    = Normal (l2, h2) /\
    l1 <> l2 /\
    parseAiResponse asciiOnlyLower (text ["Summary"; "ok"]) = Normal res /\
    h1 !! l1 = Some res /\ h2 !! l1 = Some res /\ h2 !! l2 = Some res /\
    forall l, is_Some (({[ 0%nat := emptyAnalysis ]}
                          : gmap nat ProjectAnalysis) !! l) ->
      h1 !! l = ({[ 0%nat := emptyAnalysis ]} : gmap nat ProjectAnalysis) !! l /\
      h2 !! l = ({[ 0%nat := emptyAnalysis ]} : gmap nat ProjectAnalysis) !! l.
Proof.
  exact (parse_twice_equal asciiOnlyLower (text ["Summary"; "ok"])
           {[ 0%nat := emptyAnalysis ]}).
Defined.

(** ** The remote call *)

(** With a key the request is issued: the check of the key is the only thing
    between the configuration read and the POST. *)
Lemma fetch_with_key unicodeLower stringifyFiles (net : network)
  apiKey structure files :
  isFalsy apiKey = false ->
  exists init t c,
    run net (analyzeWithKey unicodeLower stringifyFiles apiKey structure files)
    = (EvGetConfiguration (js "autopilot") :: EvFetch endpoint init :: t, c).
Proof.
  intros H. unfold analyzeWithKey. rewrite H. cbn [run].
  destruct (run net _) as [t c]. eauto.
Qed.

(** C9. When the key is missing (the empty string, the only falsy string),
    [analyzeWithDeepSeek] ends with the configuration error and the events
    up to that point contain no request, whatever the network would answer.
    The source binds the key to the empty literal, so this is what every
    call does. *)
Theorem config_error_before_fetch (unicodeLower : jsstring -> jsstring)
  (stringifyFiles : list (jsstring * jsstring) -> jsstring)
  (net : network) (structure : jsstring)
  (files : list (jsstring * jsstring)) :
  (forall apiKey,
     isFalsy apiKey = true ->
     exists t,
       run net (analyzeWithKey unicodeLower stringifyFiles apiKey
                  structure files)
       = (t, Throw configError) /\
       existsb isFetch t = false) /\
  (exists t,
     run net (analyzeWithDeepSeek unicodeLower stringifyFiles structure files)
     = (t, Throw configError) /\
     existsb isFetch t = false).
Proof.
  split.
  - intros apiKey H. unfold analyzeWithKey. rewrite H.
    exists [EvGetConfiguration (js "autopilot")]. by split.
  - exists [EvGetConfiguration (js "autopilot")]. by split.
Qed.

Lemma config_error_before_fetch_witness :
  exists t,
    run (fun _ _ => Throw (Error (js "offline")))
        (analyzeWithKey asciiOnlyLower (fun _ => js "{}") (js "")
           (text ["src/"; "extension.ts"]) [])
    = (t, Throw configError) /\
    existsb isFetch t = false.
Proof.
  apply (proj1 (config_error_before_fetch asciiOnlyLower (fun _ => js "{}")
                  (fun _ _ => Throw (Error (js "offline")))
                  (text ["src/"; "extension.ts"]) [])).
  reflexivity.
Defined.

(** ** The marker of list entries *)

Lemma startsWith_blank_head c rest :
  isWhiteSpace c = true -> startsWith (js "- ") (c :: rest) = false.
Proof.
  intros Hc. destruct (startsWith (js "- ") (c :: rest)) eqn:E; [|done].
  apply startsWith_marker_head in E as ->. done.
Qed.

(** C10. In the list fields a body line loses the marker only when it begins
    with a dash and a space, it loses it once, and the line is trimmed
    afterwards: an indented marker stays.  ["-Go"] stays ["-Go"], ["- - x"]
    becomes ["- x"] and ["  - Go"] becomes ["- Go"], in [techStack] and in
    [projectIdeas] alike. *)
Theorem marker_stripped_once_before_trim (unicodeLower : jsstring -> jsstring) :
  (forall r section f,
     category (toLowerCase unicodeLower (headingOf section)) = Some f ->
     f = FTechStack \/ f = FProjectIdeas ->
     exists res, processSection unicodeLower r section = Normal res /\
       getField f res = Items (map listEntry (bodyOf section))) /\
  (forall line, startsWith (js "- ") line = true ->
     listEntry line = trim (drop 2 line)) /\
  (forall line, startsWith (js "- ") line = false ->
     listEntry line = trim line) /\
  (forall rest, listEntry (js "- " ++ rest) = trim rest) /\
  (forall c rest, isWhiteSpace c = true ->
     listEntry (c :: rest) = trim (c :: rest)) /\
  (forall c rest, c <> 32 ->
     listEntry (45 :: c :: rest) = trim (45 :: c :: rest)) /\
  listEntry (js "-Go") = js "-Go" /\
  listEntry (js "- - x") = js "- x" /\
  listEntry (js "  - Go") = js "- Go" /\
  parseAiResponse unicodeLower (text ["Tech Stack"; "-Go"; "- - x"; "  - Go"])
  = Normal (set_techStack [js "-Go"; js "- x"; js "- Go"] emptyAnalysis) /\
  parseAiResponse unicodeLower
    (text ["Project Ideas"; "-Go"; "- - x"; "  - Go"])
  = Normal (set_projectIdeas [js "-Go"; js "- x"; js "- Go"] emptyAnalysis).
Proof.
  repeat apply conj; try reflexivity.
  - intros r section f Hc Hf. rewrite processSection_rules, Hc.
    eexists. split; [done|]. by destruct Hf as [-> | ->].
  - intros line H. unfold listEntry, replaceMarker. by rewrite H.
  - intros line H. unfold listEntry, replaceMarker. by rewrite H.
  - intros c rest Hc. unfold listEntry, replaceMarker.
    by rewrite startsWith_blank_head.
  - intros c rest Hc. unfold listEntry, replaceMarker.
    assert (startsWith (js "- ") (45 :: c :: rest) = false) as ->; [|done].
    change (startsWith (js "- ") (45 :: c :: rest))
      with ((45 =? 45) && ((32 =? c) && true)).
    apply andb_false_intro2, andb_false_intro1, N.eqb_neq.
    intros E. apply Hc. symmetry. exact E.
Qed.

Lemma marker_stripped_once_before_trim_witness :
  listEntry (js "- Rust ") = js "Rust" /\
  listEntry (js " - Rust") = js "- Rust".
Proof.
  split.
  - rewrite (proj1 (proj2 (marker_stripped_once_before_trim asciiOnlyLower)));
      reflexivity.
  - rewrite (proj1 (proj2 (proj2 (marker_stripped_once_before_trim
                                    asciiOnlyLower))));
      reflexivity.
Defined.

(** * Further properties of the code *)

(** ** Occurrences *)

Lemma startsWith_self_app p s : startsWith p (p ++ s) = true.
Proof.
  induction p as [|c p IH]; simpl; [done|]. by rewrite N.eqb_refl.
Qed.

Lemma startsWith_app p : forall a b,
  startsWith p a = true -> startsWith p (a ++ b) = true.
Proof.
  induction p as [|c p IH]; intros a b; [done|].
  destruct a as [|x a]; simpl; [done|].
  intros H. apply andb_prop in H as [-> H]. simpl. by apply IH.
Qed.

Lemma includes_app_r p a b :
  includes b p = true -> includes (a ++ b) p = true.
Proof.
  intros H. induction a as [|x a IH]; simpl; [done|].
  rewrite IH. apply orb_true_r.
Qed.

Lemma includes_app_l p a b :
  includes a p = true -> includes (a ++ b) p = true.
Proof.
  induction a as [|x a IH]; simpl.
  - destruct p; [by destruct b|done].
  - intros H. apply orb_prop in H as [H|H].
    + change (x :: a ++ b) with ((x :: a) ++ b).
      by rewrite (startsWith_app _ _ _ H).
    + rewrite (IH H). apply orb_true_r.
Qed.

Lemma includes_here p s : includes (p ++ s) p = true.
Proof.
  destruct (p ++ s) eqn:E; simpl; rewrite <- E, startsWith_self_app; done.
Qed.

(** A string embedded between two others occurs in the whole. *)
Lemma includes_middle p a b : includes (a ++ p ++ b) p = true.
Proof. apply includes_app_r, includes_here. Qed.

Lemma includes_absent_app_r p a b :
  includes (a ++ b) p = false -> includes b p = false.
Proof.
  intros H. destruct (includes b p) eqn:E; [|done].
  by rewrite (includes_app_r p a b E) in H.
Qed.

Lemma includes_absent_app_l p a b :
  includes (a ++ b) p = false -> includes a p = false.
Proof.
  intros H. destruct (includes a p) eqn:E; [|done].
  by rewrite (includes_app_l p a b E) in H.
Qed.

(** An occurrence of a pattern that is not empty starts inside the text. *)
Lemma includes_position p x :
  p <> [] -> includes x p = true ->
  exists k, (k < length x)%nat /\ startsWith p (drop k x) = true.
Proof.
  intros Hp. induction x as [|c x IH]; simpl.
  - destruct p; [done|]. simpl. done.
  - intros H. apply orb_prop in H as [H|H].
    + exists 0%nat. split; [lia|done].
    + destruct (IH H) as (k & Hk & Hs). exists (S k). split; [lia|done].
Qed.

(** The line break occurs in a string exactly when it is one of its code
    units. *)
Lemma includes_LF x : includes x LF = true <-> 10 ∈ x.
Proof.
  induction x as [|c x IH].
  - split; [done|]. intros H. by apply elem_of_nil in H.
  - change (includes (c :: x) LF)
      with (((10 =? c) && true) || includes x LF).
    rewrite andb_true_r, elem_of_cons, orb_true_iff, N.eqb_eq, IH. done.
Qed.

Lemma includes_LF_false x : includes x LF = false <-> 10 ∉ x.
Proof.
  rewrite <- includes_LF. destruct (includes x LF); split; try done.
Qed.

(** ** Lines and parts *)

Lemma split_from_skip sep s : forall skip piece,
  split_from sep skip piece s = split_from sep 0 piece (drop skip s).
Proof.
  induction s as [|c s IH]; intros skip piece.
  - by rewrite drop_nil.
  - destruct skip as [|k]; [done|]. simpl. apply IH.
Qed.

(** The first line of a text is what stands before its first line break. *)
Lemma split_from_LF_line line rest : forall piece,
  includes line LF = false ->
  split_from LF 0 piece (line ++ LF ++ rest)
  = (rev piece ++ line) :: split_from LF 0 [] rest.
Proof.
  induction line as [|c line IH]; intros piece H.
  - simpl. by rewrite app_nil_r.
  - apply includes_cons_false in H as [Hc Hl].
    assert ((10 =? c) = false) as Hc'.
    { change (startsWith LF (c :: line)) with ((10 =? c) && true) in Hc.
      by rewrite andb_true_r in Hc. }
    change (split_from LF 0 piece ((c :: line) ++ LF ++ rest))
      with (if (10 =? c) && true
            then rev piece :: split_from LF 0 [] (line ++ LF ++ rest)
            else split_from LF 0 (c :: piece) (line ++ LF ++ rest)).
    rewrite Hc'. simpl. rewrite (IH _ Hl). simpl. by rewrite <- app_assoc.
Qed.

Lemma split_LF_line line rest :
  includes line LF = false ->
  split (line ++ LF ++ rest) LF = line :: split rest LF.
Proof. intros H. unfold split, LF at 2 4. fold LF. by rewrite split_from_LF_line. Qed.

Lemma join_cons sep x y l :
  join sep (x :: y :: l) = x ++ sep ++ join sep (y :: l).
Proof. done. Qed.

(** Joining the lines of a text with line breaks gives the text back. *)
Lemma join_split_from_LF s : forall piece,
  join LF (split_from LF 0 piece s) = rev piece ++ s.
Proof.
  induction s as [|c s IH]; intros piece.
  - simpl. by rewrite app_nil_r.
  - change (split_from LF 0 piece (c :: s))
      with (if (10 =? c) && true
            then rev piece :: split_from LF 0 [] s
            else split_from LF 0 (c :: piece) s).
    destruct (10 =? c) eqn:E; cbn [andb].
    + apply N.eqb_eq in E as <-.
      destruct (split_from_cons LF s 0 []) as (x & l & Hx).
      pose proof (IH []) as IH'. rewrite Hx in *.
      rewrite join_cons, IH'. done.
    + rewrite IH. simpl. by rewrite <- app_assoc.
Qed.

Lemma join_split_LF s : join LF (split s LF) = s.
Proof. apply (join_split_from_LF s []). Qed.

(** No part that [split] returns contains the separator. *)
Lemma split_from_parts sep :
  sep <> [] ->
  forall n s piece,
    (length s <= n)%nat ->
    (forall k, (k < length piece)%nat ->
       startsWith sep (drop k (rev piece ++ s)) = false) ->
    forall x, x ∈ split_from sep 0 piece s -> includes x sep = false.
Proof.
  intros Hsep.
  assert (forall piece s,
    (forall k, (k < length piece)%nat ->
       startsWith sep (drop k (rev piece ++ s)) = false) ->
    includes (rev piece) sep = false) as Hemit.
  { intros piece s HP. destruct (includes (rev piece) sep) eqn:E; [|done].
    destruct (includes_position _ _ Hsep E) as (k & Hk & Hs).
    rewrite length_rev in Hk. rewrite <- (HP k Hk).
    rewrite drop_app_le by (rewrite length_rev; lia).
    symmetry. by apply startsWith_app. }
  induction n as [|n IH]; intros s piece Hlen HP x Hx.
  - destruct s; [|simpl in Hlen; lia]. simpl in Hx.
    apply list_elem_of_singleton in Hx as ->. by apply (Hemit piece []).
  - destruct s as [|c s].
    { simpl in Hx. apply list_elem_of_singleton in Hx as ->.
      by apply (Hemit piece []). }
    simpl in Hlen. cbn [split_from] in Hx.
    destruct (startsWith sep (c :: s)) eqn:E.
    + apply elem_of_cons in Hx as [-> | Hx]; [by apply (Hemit piece (c :: s))|].
      rewrite split_from_skip in Hx.
      apply (IH (drop (length sep - 1) s) []); [|simpl; lia|done].
      rewrite length_drop. lia.
    + apply (IH s (c :: piece)); [lia| |done].
      intros k Hk. simpl. rewrite <- app_assoc. simpl.
      simpl in Hk. destruct (decide (k = length piece)) as [->|Hne].
      * rewrite drop_app_length'; [done|by rewrite length_rev].
      * apply HP. lia.
Qed.

Lemma split_parts s sep x :
  sep <> [] -> x ∈ split s sep -> includes x sep = false.
Proof.
  intros Hsep. unfold split. destruct sep as [|c sep]; [done|].
  apply (split_from_parts (c :: sep) Hsep (length s)); [done|].
  simpl. intros k Hk. lia.
Qed.

(** ** Trimming *)

Lemma elem_of_rev (x : N) l : x ∈ rev l <-> x ∈ l.
Proof. rewrite !list_elem_of_In. symmetry. apply in_rev. Qed.

Lemma elem_of_drop_sub {A} (x : A) n l : x ∈ drop n l -> x ∈ l.
Proof.
  revert n. induction l as [|a l IH]; intros [|n]; simpl; try done.
  intros H. right. by apply (IH n).
Qed.

Lemma trimStart_sub x s : x ∈ trimStart s -> x ∈ s.
Proof.
  induction s as [|c s IH]; simpl; [done|].
  destruct (isWhiteSpace c); [|done]. intros H. right. by apply IH.
Qed.

Lemma trim_sub x s : x ∈ trim s -> x ∈ s.
Proof.
  unfold trim, trimEnd. rewrite elem_of_rev. intros H.
  apply trimStart_sub. apply elem_of_rev. by apply trimStart_sub.
Qed.

Lemma trimStart_idem s : trimStart (trimStart s) = trimStart s.
Proof.
  induction s as [|c s IH]; simpl; [done|].
  destruct (isWhiteSpace c) eqn:E; [done|]. simpl. by rewrite E.
Qed.

Lemma trimStart_snoc c a :
  isWhiteSpace c = false -> trimStart (a ++ [c]) = trimStart a ++ [c].
Proof.
  intros Hc. induction a as [|x a IH]; simpl; [by rewrite Hc|].
  by destruct (isWhiteSpace x).
Qed.

Lemma trimStart_head c s :
  trimStart s = c :: drop 1 (trimStart s) -> isWhiteSpace c = false.
Proof.
  induction s as [|x s IH]; simpl; [done|].
  destruct (isWhiteSpace x) eqn:E; [done|]. by intros [= <-].
Qed.

(** Trimming the end keeps a start that is already trimmed. *)
Lemma trimStart_trimEnd s :
  trimStart (trimEnd (trimStart s)) = trimEnd (trimStart s).
Proof.
  destruct (trimStart s) as [|c t] eqn:E; [done|].
  assert (isWhiteSpace c = false) as Hc.
  { apply (trimStart_head c s). by rewrite E. }
  unfold trimEnd. simpl. rewrite (trimStart_snoc _ _ Hc), rev_app_distr.
  simpl. by rewrite Hc.
Qed.

Lemma trimEnd_idem s : trimEnd (trimEnd s) = trimEnd s.
Proof. unfold trimEnd. by rewrite rev_involutive, trimStart_idem. Qed.

(** A trimmed string stays as it is when trimmed again. *)
Lemma trim_idem s : trim (trim s) = trim s.
Proof. unfold trim. by rewrite trimStart_trimEnd, trimEnd_idem. Qed.

Lemma replaceMarker_sub x line : x ∈ replaceMarker line -> x ∈ line.
Proof.
  unfold replaceMarker. destruct (startsWith _ line); [|done].
  apply elem_of_drop_sub.
Qed.

Lemma join_sub x sep l :
  x ∈ join sep l -> x ∈ sep \/ exists line, line ∈ l /\ x ∈ line.
Proof.
  induction l as [|a l IH]; [intros H; by apply elem_of_nil in H|].
  destruct l as [|b l].
  - simpl. intros H. right. exists a. split; [by left|done].
  - rewrite join_cons, !elem_of_app. intros [H|[H|H]].
    + right. exists a. split; [by left|done].
    + by left.
    + destruct (IH H) as [?|(line & Hl & Hx)]; [by left|].
      right. exists line. split; [by right|done].
Qed.

(** The lines of a section hold no line break. *)
Lemma body_line_no_LF section line :
  line ∈ bodyOf section -> 10 ∉ line.
Proof.
  unfold bodyOf, slice1. intros H. apply elem_of_drop_sub in H.
  apply includes_LF_false. by apply (split_parts section LF).
Qed.

(** The body of a section, joined again, is the end of the section. *)
Lemma body_is_suffix section :
  exists pre, section = pre ++ join LF (bodyOf section).
Proof.
  unfold bodyOf, slice1. pose proof (join_split_LF section) as H.
  destruct (split section LF) as [|h [|b l]]; simpl in *.
  - exists []. done.
  - exists h. by rewrite app_nil_r.
  - exists (h ++ LF). by rewrite <- app_assoc.
Qed.

(** ** Sections *)

Lemma section_with_body h rest :
  includes h LF = false ->
  headingOf (h ++ LF ++ rest) = h /\ bodyOf (h ++ LF ++ rest) = split rest LF.
Proof.
  intros H. unfold headingOf, bodyOf. by rewrite (split_LF_line _ _ H).
Qed.

Lemma section_without_body section :
  includes section LF = false ->
  headingOf section = section /\ bodyOf section = [].
Proof.
  intros H. unfold headingOf, bodyOf, LF in *.
  by rewrite (split_absent section 10 [] H).
Qed.

(** X1. A section of the folder structure or summary category stores what
    follows its first line break as it stands: nothing is trimmed, and line
    breaks and spaces inside stay.  No other field changes. *)
Theorem stored_text_verbatim (unicodeLower : jsstring -> jsstring)
  (r : ProjectAnalysis) (h rest : jsstring) (f : field) :
  includes h LF = false ->
  category (toLowerCase unicodeLower h) = Some f ->
  f = FFolderStructure \/ f = FSummary ->
  exists res,
    processSection unicodeLower r (h ++ LF ++ rest) = Normal res /\
    getField f res = Text rest /\
    forall g, g <> f -> getField g res = getField g r.
Proof.
  intros Hh Hc Hf. rewrite processSection_rules.
  destruct (section_with_body h rest Hh) as [-> ->]. rewrite Hc.
  eexists. split; [done|]. split.
  - rewrite getField_assign_same.
    destruct Hf as [-> | ->]; cbn [sectionValue]; by rewrite join_split_LF.
  - intros g Hg. by apply getField_assign_other.
Qed.

Lemma stored_text_verbatim_witness :
  exists res,
    processSection asciiOnlyLower emptyAnalysis
      (js "## Summary:" ++ LF ++ text ["  Two  spaces "; " - kept"; ""])
    = Normal res /\
    getField FSummary res = Text (text ["  Two  spaces "; " - kept"; ""]) /\
    forall g, g <> FSummary -> getField g res = getField g emptyAnalysis.
Proof.
  apply (stored_text_verbatim asciiOnlyLower emptyAnalysis
           (js "## Summary:") (text ["  Two  spaces "; " - kept"; ""])
           FSummary).
  - reflexivity.
  - reflexivity.
  - by right.
Defined.

(** X2. A section that is a heading alone, with no line break, puts its
    field back to the empty value: when it is the last section of its
    category, the field of the result is empty whatever earlier sections of
    the category held. *)
Theorem bare_heading_resets_field (unicodeLower : jsstring -> jsstring)
  (rawText : jsstring) (pre : list jsstring) (s : jsstring)
  (post : list jsstring) (f : field) :
  split rawText (LF ++ LF) = pre ++ s :: post ->
  includes s LF = false ->
  category (toLowerCase unicodeLower s) = Some f ->
  (forall s', s' ∈ post ->
     category (toLowerCase unicodeLower (headingOf s')) <> Some f) ->
  exists res, parseAiResponse unicodeLower rawText = Normal res /\
    getField f res = getField f emptyAnalysis.
Proof.
  intros Hsplit Hs Hc Hpost. unfold parseAiResponse. rewrite Hsplit.
  destruct (forEach_normal unicodeLower (pre ++ s :: post) emptyAnalysis)
    as [res Hres].
  exists res. split; [done|].
  destruct (section_without_body s Hs) as [Hh Hb].
  rewrite (forEach_last_write unicodeLower f pre s post _ _ Hres);
    [|by rewrite Hh|done].
  rewrite Hb. by destruct f.
Qed.

Lemma bare_heading_resets_field_witness :
  exists res,
    parseAiResponse asciiOnlyLower
      (text ["Tech Stack"; "- Go"; "- Docker"; ""; "Tech stack:"])
    = Normal res /\
    getField FTechStack res = getField FTechStack emptyAnalysis.
Proof.
  apply (bare_heading_resets_field asciiOnlyLower
           (text ["Tech Stack"; "- Go"; "- Docker"; ""; "Tech stack:"])
           [text ["Tech Stack"; "- Go"; "- Docker"]]
           (js "Tech stack:") [] FTechStack).
  - reflexivity.
  - reflexivity.
  - reflexivity.
  - intros s' Hin. by apply elem_of_nil in Hin.
Defined.

(** X3. The summary and the folder structure analysis of a result never
    contain a blank line: a text of several paragraphs is cut at its first
    blank line, and the rest is a section of its own. *)
Theorem text_fields_have_no_blank_line (unicodeLower : jsstring -> jsstring)
  (rawText : jsstring) (res : ProjectAnalysis) :
  parseAiResponse unicodeLower rawText = Normal res ->
  includes (summary res) (LF ++ LF) = false /\
  includes (folderStructureAnalysis res) (LF ++ LF) = false.
Proof.
  intros Hres. unfold parseAiResponse in Hres.
  assert (forall f v, f = FFolderStructure \/ f = FSummary ->
            getField f res = Text v -> includes v (LF ++ LF) = false) as H.
  { intros f v Hf Hv.
    destruct (forEach_origin unicodeLower f _ _ _ Hres)
      as [Hd | (s & Hin & _ & Hs)].
    - rewrite Hv in Hd. destruct Hf as [-> | ->]; by injection Hd as ->.
    - apply (split_parts rawText (LF ++ LF)) in Hin; [|done].
      destruct (body_is_suffix s) as [p Hp]. rewrite Hp in Hin.
      apply includes_absent_app_r in Hin.
      rewrite Hv in Hs. destruct Hf as [-> | ->]; by injection Hs as ->. }
  split.
  - apply (H FSummary); [by right|done].
  - apply (H FFolderStructure); [by left|done].
Qed.

Lemma text_fields_have_no_blank_line_witness :
  includes (js "First paragraph.") (LF ++ LF) = false /\
  includes (js "") (LF ++ LF) = false.
Proof.
  apply (text_fields_have_no_blank_line asciiOnlyLower
           (text ["Summary"; "First paragraph."; ""; "Second paragraph."])
           (set_summary (js "First paragraph.") emptyAnalysis)).
  reflexivity.
Defined.

(** X4. The project name and every entry of the tech stack and of the
    project ideas of a result are trimmed and hold no line break. *)
Theorem names_and_entries_trimmed (unicodeLower : jsstring -> jsstring)
  (rawText : jsstring) (res : ProjectAnalysis) :
  parseAiResponse unicodeLower rawText = Normal res ->
  (trim (projectName res) = projectName res /\ 10 ∉ projectName res) /\
  (forall e, e ∈ techStack res \/ e ∈ projectIdeas res ->
     trim e = e /\ 10 ∉ e).
Proof.
  intros Hres. unfold parseAiResponse in Hres.
  assert (forall body e, e ∈ map listEntry (bodyOf body) ->
            trim e = e /\ 10 ∉ e) as Hentry.
  { intros body e He. apply list_elem_of_In, in_map_iff in He
      as (line & <- & Hline).
    apply list_elem_of_In in Hline. split; [apply trim_idem|].
    intros H. apply trim_sub, replaceMarker_sub in H.
    by apply (body_line_no_LF body line). }
  split.
  - destruct (forEach_origin unicodeLower FProjectName _ _ _ Hres)
      as [Hd | (s & _ & _ & Hs)].
    + injection Hd as ->. split; [done|]. apply not_elem_of_nil.
    + injection Hs as ->. split; [apply trim_idem|].
      intros H. apply trim_sub, join_sub in H as [H | (line & Hl & H)].
      * apply list_elem_of_singleton in H. done.
      * by apply (body_line_no_LF s line).
  - intros e [He | He].
    + destruct (forEach_origin unicodeLower FTechStack _ _ _ Hres)
        as [Hd | (s & _ & _ & Hs)].
      * injection Hd as Hd. rewrite Hd in He. by apply elem_of_nil in He.
      * injection Hs as Hs. rewrite Hs in He. by apply (Hentry s).
    + destruct (forEach_origin unicodeLower FProjectIdeas _ _ _ Hres)
        as [Hd | (s & _ & _ & Hs)].
      * injection Hd as Hd. rewrite Hd in He. by apply elem_of_nil in He.
      * injection Hs as Hs. rewrite Hs in He. by apply (Hentry s).
Qed.

Lemma names_and_entries_trimmed_witness :
  (trim (js "my app") = js "my app" /\ 10 ∉ js "my app") /\
  (forall e, e ∈ [js "Go"; js ""] \/ e ∈ [] -> trim e = e /\ 10 ∉ e).
Proof.
  apply (names_and_entries_trimmed asciiOnlyLower
           (text ["Project Name"; " my"; "app  "; "";
                  "Tech Stack"; "- Go "; "  "])
           (set_techStack [js "Go"; js ""]
              (set_projectName (js "my app") emptyAnalysis))).
  reflexivity.
Defined.

Lemma asciiLower_cases c :
  (asciiLower c = c + 32 /\ 65 <= c <= 90) \/
  (asciiLower c = c /\ (c < 65 \/ 90 < c)).
Proof.
  unfold asciiLower.
  destruct (N.leb_spec 65 c), (N.leb_spec c 90); simpl; lia.
Qed.

Lemma asciiLower_idem c : asciiLower (asciiLower c) = asciiLower c.
Proof.
  destruct (asciiLower_cases c) as [[-> ?]|[-> ?]];
    destruct (asciiLower_cases (c + 32)) as [[E ?]|[E ?]];
    destruct (asciiLower_cases c) as [[E' ?]|[E' ?]]; lia.
Qed.

Lemma asciiLower_ascii c : isAscii c = true -> isAscii (asciiLower c) = true.
Proof.
  unfold isAscii. rewrite !N.ltb_lt.
  destruct (asciiLower_cases c) as [[-> ?]|[-> ?]]; lia.
Qed.

Lemma asciiLower_LF c : asciiLower c = 10 <-> c = 10.
Proof. destruct (asciiLower_cases c) as [[-> ?]|[-> ?]]; lia. Qed.

Lemma toLowerCase_ascii_lowered unicodeLower h :
  forallb isAscii h = true ->
  toLowerCase unicodeLower (map asciiLower h) = toLowerCase unicodeLower h.
Proof.
  intros H. unfold toLowerCase. rewrite H.
  assert (forallb isAscii (map asciiLower h) = true) as ->.
  { induction h as [|c h IH]; simpl in *; [done|].
    apply andb_prop in H as [Hc Hh]. by rewrite (asciiLower_ascii _ Hc), IH. }
  rewrite map_map. apply map_ext. intros c. apply asciiLower_idem.
Qed.

Lemma asciiLower_keeps_line h :
  includes h LF = false -> includes (map asciiLower h) LF = false.
Proof.
  rewrite !includes_LF_false. intros H Hin.
  apply list_elem_of_In, in_map_iff in Hin as (c & Hc & Hin).
  apply asciiLower_LF in Hc as ->. by apply H, list_elem_of_In.
Qed.

(** X5. The case of an ASCII heading does not matter: a section does to the
    record what the section with the heading in lower case and the same body
    does, and the same holds for a heading alone. *)
Theorem ascii_heading_case_ignored (unicodeLower : jsstring -> jsstring)
  (r : ProjectAnalysis) (h rest : jsstring) :
  forallb isAscii h = true ->
  includes h LF = false ->
  processSection unicodeLower r (h ++ LF ++ rest)
  = processSection unicodeLower r (map asciiLower h ++ LF ++ rest) /\
  processSection unicodeLower r h
  = processSection unicodeLower r (map asciiLower h).
Proof.
  intros Ha Hl. pose proof (asciiLower_keeps_line h Hl) as Hl'.
  rewrite !processSection_rules.
  destruct (section_with_body h rest Hl) as [-> ->].
  destruct (section_with_body (map asciiLower h) rest Hl') as [-> ->].
  destruct (section_without_body h Hl) as [-> ->].
  destruct (section_without_body (map asciiLower h) Hl') as [-> ->].
  by rewrite (toLowerCase_ascii_lowered _ _ Ha).
Qed.

Lemma ascii_heading_case_ignored_witness :
  processSection asciiOnlyLower emptyAnalysis
    (js "FOLDER Structure" ++ LF ++ js "src/")
  = processSection asciiOnlyLower emptyAnalysis
      (js "folder structure" ++ LF ++ js "src/") /\
  processSection asciiOnlyLower emptyAnalysis (js "FOLDER Structure")
  = processSection asciiOnlyLower emptyAnalysis (js "folder structure").
Proof.
  apply (ascii_heading_case_ignored asciiOnlyLower emptyAnalysis
           (js "FOLDER Structure") (js "src/")); reflexivity.
Defined.

(** ** The scan of the workspace *)

(** The loop adds to what was built before it. *)
Lemma walkFiles_acc files : forall structure,
  walkFiles walk files structure
  = cbind (walkFiles walk files []) (fun s => Normal (structure ++ s)).
Proof.
  induction files as [|[file node] rest IH]; intros structure.
  - simpl. by rewrite app_nil_r.
  - destruct node as [content|err sub|e]; cbn [walkFiles].
    + rewrite IH, (IH ([] ++ _)).
      destruct (walkFiles walk rest []); simpl; [|done].
      by rewrite <- !app_assoc.
    + destruct (walk (FsDir err sub)) as [s|e]; simpl; [|done].
      rewrite IH, (IH (_ ++ s)).
      destruct (walkFiles walk rest []); simpl; [|done].
      by rewrite <- !app_assoc.
    + done.
Qed.

Lemma walkFiles_app files1 files2 structure :
  walkFiles walk (files1 ++ files2) structure
  = cbind (walkFiles walk files1 structure)
          (fun s => walkFiles walk files2 s).
Proof.
  revert structure.
  induction files1 as [|[file node] rest IH]; intros structure; [done|].
  destruct node as [content|err sub|e]; cbn [walkFiles app].
  - apply IH.
  - destruct (walk (FsDir err sub)) as [s|e]; simpl; [apply IH|done].
  - done.
Qed.

(** X6. The listing does not tell a nested entry from a sibling: with the
    entries of a readable directory moved out of it, right behind it, the
    scan gives a text exactly when it gave one before, and the same text. *)
Theorem walk_flattens_nesting (before : list (jsstring * fsnode))
  (name : jsstring) (inside after : list (jsstring * fsnode))
  (structure : jsstring) :
  getDirectoryStructure
    (FsDir None (before ++ (name, FsDir None inside) :: after))
  = Normal structure <->
  getDirectoryStructure
    (FsDir None (before ++ (name, FsDir None []) :: inside ++ after))
  = Normal structure.
Proof.
  unfold getDirectoryStructure. cbn [walk]. rewrite !walkFiles_app.
  destruct (walkFiles walk before []) as [s|e]; simpl; [|done].
  rewrite app_nil_r, walkFiles_app.
  rewrite (walkFiles_acc inside (s ++ _)).
  destruct (walkFiles walk inside []) as [t|e]; simpl; [|done].
  by rewrite <- !app_assoc.
Qed.

Lemma walk_flattens_nesting_witness :
  getDirectoryStructure
    (FsDir None
       [ (js "src", FsDir None []);
         (js "a.ts", FsFile (Normal (js "x")));
         (js "README.md", FsFile (Normal (js "# hi"))) ])
  = Normal (text ["src/"; "a.ts"; "README.md"; ""]).
Proof.
  apply (walk_flattens_nesting [] (js "src")
           [ (js "a.ts", FsFile (Normal (js "x"))) ]
           [ (js "README.md", FsFile (Normal (js "# hi"))) ]).
  reflexivity.
Defined.

(** Induction on a tree of the workspace: a directory has the property when
    all that it holds has it. *)
Lemma fsnode_tree_ind (P : fsnode -> Prop) :
  (forall content, P (FsFile content)) ->
  (forall e, P (FsBroken e)) ->
  (forall err files, Forall (fun entry => P entry.2) files ->
                     P (FsDir err files)) ->
  forall node, P node.
Proof.
  intros Hfile Hbroken Hdir. fix IH 1.
  intros [content|err files|e]; [apply Hfile| |apply Hbroken].
  apply Hdir. induction files as [|[name node] rest IHrest].
  - constructor.
  - constructor; [apply IH|exact IHrest].
Qed.

Lemma walkFiles_text files :
  Forall (fun entry : jsstring * fsnode =>
            forall s, walk entry.2 = Normal s ->
              s = concat (map (fun n => n ++ LF) (listing entry.2))) files ->
  forall s, walkFiles walk files [] = Normal s ->
    s = concat (map (fun n => n ++ LF) (listingFiles listing files)).
Proof.
  induction 1 as [|[file node] rest Hnode _ IH]; intros s.
  - by intros [= <-].
  - destruct node as [content|err sub|e]; cbn [walkFiles listingFiles].
    + rewrite walkFiles_acc.
      destruct (walkFiles walk rest []) as [t|]; simpl; [|done].
      intros [= <-]. by rewrite (IH t eq_refl).
    + cbn [snd] in Hnode.
      destruct (walk (FsDir err sub)) as [u|] eqn:E; cbn [cbind]; [|done].
      rewrite walkFiles_acc.
      destruct (walkFiles walk rest []) as [t|]; cbn [cbind]; [|done].
      intros [= <-]. cbn [map concat]. rewrite map_app, concat_app.
      rewrite <- (Hnode u eq_refl), <- (IH t eq_refl).
      by rewrite <- !app_assoc.
    + done.
Qed.

Lemma walk_text dir : forall s,
  walk dir = Normal s ->
  s = concat (map (fun n => n ++ LF) (listing dir)).
Proof.
  induction dir as [content|e|err files IH] using fsnode_tree_ind;
    intros s; try done.
  destruct err as [e|]; [done|]. cbn [walk listing].
  by apply walkFiles_text.
Qed.

Lemma split_lines l :
  (forall n, n ∈ l -> includes n LF = false) ->
  split (concat (map (fun n => n ++ LF) l)) LF = l ++ [[]].
Proof.
  induction l as [|n l IH]; intros H; [done|].
  cbn [map concat]. rewrite <- app_assoc, split_LF_line by (apply H; by left).
  rewrite IH; [done|]. intros m Hm. apply H. by right.
Qed.

(** X7. The text of a scan is the entries of the tree in depth-first order,
    a directory before what it holds and with a slash at its end, each
    followed by a line break.  When no name holds a line break, cutting the
    text at the line breaks gives the entries back, and one empty string
    after them. *)
Theorem scan_lists_entries_depth_first (rootPath : fsnode)
  (structure : jsstring) :
  getDirectoryStructure rootPath = Normal structure ->
  structure = concat (map (fun n => n ++ LF) (listing rootPath)) /\
  ((forall n, n ∈ listing rootPath -> includes n LF = false) ->
   split structure LF = listing rootPath ++ [[]]).
Proof.
  intros H. apply walk_text in H as ->. split; [done|]. apply split_lines.
Qed.

Lemma scan_lists_entries_depth_first_witness :
  text ["src/"; "extension.ts"; "test/"; "package.json"; ""]
  = concat (map (fun n => n ++ LF)
              [js "src/"; js "extension.ts"; js "test/"; js "package.json"]) /\
  ((forall n, n ∈ [js "src/"; js "extension.ts"; js "test/";
                   js "package.json"] -> includes n LF = false) ->
   split (text ["src/"; "extension.ts"; "test/"; "package.json"; ""]) LF
   = [js "src/"; js "extension.ts"; js "test/"; js "package.json"] ++ [[]]).
Proof.
  apply (scan_lists_entries_depth_first
           (FsDir None
              [ (js "src", FsDir None
                   [ (js "extension.ts", FsFile (Normal (js "import"))) ]);
                (js "test", FsDir None []);
                (js "package.json", FsFile (Normal (js "{}"))) ])).
  reflexivity.
Defined.

Lemma walkFiles_readable files :
  Forall (fun entry : jsstring * fsnode =>
            (exists s, walk entry.2 = Normal s) <->
            readable entry.2 = true) files ->
  (exists s, walkFiles walk files [] = Normal s) <->
  readableFiles readable files = true.
Proof.
  induction 1 as [|[file node] rest Hnode _ IH].
  { simpl. split; [done|]. intros _. by exists []. }
  destruct node as [content|err sub|e]; cbn [walkFiles readableFiles].
  - rewrite walkFiles_acc, <- IH.
    destruct (walkFiles walk rest []); cbn [cbind].
    + split; eauto.
    + split; intros [s Hs]; done.
  - cbn [snd] in Hnode. rewrite andb_true_iff, <- Hnode, <- IH.
    destruct (walk (FsDir err sub)) as [u|]; cbn [cbind].
    + rewrite walkFiles_acc.
      destruct (walkFiles walk rest []); cbn [cbind].
      * split; eauto.
      * split; [intros [s Hs]; done | intros [_ [s Hs]]; done].
    + split; [intros [s Hs]; done | intros [[s Hs] _]; done].
  - split; [intros [s Hs]; done | done].
Qed.

(** X8. The scan gives a text exactly when the root and every directory
    below it can be listed and every entry below it answers [stat]: one
    entry that fails anywhere in the tree makes the whole scan fail, and no
    partial text is returned. *)
Theorem scan_succeeds_iff_readable (rootPath : fsnode) :
  (exists structure, getDirectoryStructure rootPath = Normal structure) <->
  readable rootPath = true.
Proof.
  unfold getDirectoryStructure.
  induction rootPath as [content|e|err files IH] using fsnode_tree_ind.
  - split; [intros [s Hs]; done | done].
  - split; [intros [s Hs]; done | done].
  - destruct err as [e|]; cbn [walk readable].
    + split; [intros [s Hs]; done | done].
    + by apply walkFiles_readable.
Qed.

Lemma scan_succeeds_iff_readable_witness :
  readable (FsDir None
              [ (js "src", FsDir None [ (js "a.ts", FsFile (Normal [])) ]);
                (js "README.md", FsFile (Throw enoent)) ]) = true.
Proof.
  apply scan_succeeds_iff_readable. eexists. reflexivity.
Defined.

(** ** The key files *)

Lemma setProp_fresh key v obj :
  key ∉ map fst obj -> setProp key v obj = obj ++ [(key, v)].
Proof.
  induction obj as [|[k w] obj IH]; simpl; [done|].
  intros H. apply not_elem_of_cons in H as [Hk Hobj].
  rewrite bool_decide_eq_false_2 by congruence. by rewrite IH.
Qed.

Lemma forEach_ext {A S} (f g : S -> A -> completion S) l :
  (forall x, x ∈ l -> forall st, f st x = g st x) ->
  forall st, forEach f st l = forEach g st l.
Proof.
  induction l as [|x l IH]; intros H st; simpl; [done|].
  rewrite (H x) by (by left).
  destruct (g st x); simpl; [|done]. apply IH. intros y Hy. apply H. by right.
Qed.

(** The loop of [identifyKeyFiles] over any list of distinct names. *)
Lemma keyFiles_loop rootPath l : forall acc keyFiles,
  NoDup l ->
  (forall f, f ∈ l -> f ∉ map fst acc) ->
  forEach (readKeyFile rootPath) acc l = Normal keyFiles ->
  map fst keyFiles = map fst acc ++ List.filter (existsSync rootPath) l /\
  forall k v, (k, v) ∈ keyFiles ->
    (k, v) ∈ acc \/ readFileSync rootPath k = Normal v.
Proof.
  induction l as [|f l IH]; intros acc keyFiles Hnd Hfresh.
  - simpl. intros [= <-]. rewrite app_nil_r. split; [done|]. by left.
  - apply NoDup_cons in Hnd as [Hf Hnd].
    cbn [forEach List.filter]. unfold readKeyFile at 1.
    destruct (existsSync rootPath f) eqn:Ex.
    + destruct (readFileSync rootPath f) as [content|] eqn:Er; [|done].
      cbn [cbind]. rewrite setProp_fresh by (apply Hfresh; by left).
      intros Hloop. apply IH in Hloop as [Hkeys Hvals]; [|done|].
      * split.
        { rewrite Hkeys, map_app. simpl. by rewrite <- app_assoc. }
        intros k v Hkv. destruct (Hvals k v Hkv) as [Hin|Hr]; [|by right].
        apply elem_of_app in Hin as [Hin|Hin]; [by left|].
        apply list_elem_of_singleton in Hin as [= -> ->]. by right.
      * intros g Hg. rewrite map_app. simpl.
        intros Hin. apply elem_of_app in Hin as [Hin|Hin].
        { by apply (Hfresh g); [right|]. }
        apply list_elem_of_singleton in Hin as ->. done.
    + cbn [cbind]. intros Hloop. apply IH in Hloop; [done|done|].
      intros g Hg. apply Hfresh. by right.
Qed.

Lemma keyFiles_loop_throws rootPath l : forall acc,
  (exists e, forEach (readKeyFile rootPath) acc l = Throw e) <->
  exists f, f ∈ l /\ existsSync rootPath f = true /\
            exists e, readFileSync rootPath f = Throw e.
Proof.
  induction l as [|f l IH]; intros acc.
  - simpl. split; [intros [e He]; done|].
    intros (f & Hf & _). by apply elem_of_nil in Hf.
  - cbn [forEach]. unfold readKeyFile at 1.
    destruct (existsSync rootPath f) eqn:Ex.
    + destruct (readFileSync rootPath f) as [content|e] eqn:Er; cbn [cbind].
      * rewrite IH. split.
        { intros (g & Hg & H). exists g. split; [by right|done]. }
        intros (g & Hg & Hex & e & He).
        apply elem_of_cons in Hg as [->|Hg]; [congruence|]. eauto.
      * split; [|by eauto]. intros _. exists f. split; [by left|eauto].
    + cbn [cbind]. rewrite IH. split.
      * intros (g & Hg & H). exists g. split; [by right|done].
      * intros (g & Hg & Hex & H).
        apply elem_of_cons in Hg as [->|Hg]; [congruence|]. eauto.
Qed.

Lemma importantFiles_NoDup : NoDup importantFiles.
Proof. apply (bool_decide_unpack _). vm_compute. exact I. Qed.

(** X9. The keys of the object [identifyKeyFiles] returns are the names of
    the allow-list that exist at the root, in the order of the allow-list
    and each once; the value of a key is the text [readFileSync] gives for
    it; there are at most ten. *)
Theorem key_files_are_the_existing_ones (rootPath : fsnode)
  (keyFiles : list (jsstring * jsstring)) :
  identifyKeyFiles rootPath = Normal keyFiles ->
  map fst keyFiles = List.filter (existsSync rootPath) importantFiles /\
  (forall k v, (k, v) ∈ keyFiles -> readFileSync rootPath k = Normal v) /\
  NoDup (map fst keyFiles) /\
  (length keyFiles <= 10)%nat.
Proof.
  intros H. unfold identifyKeyFiles in H.
  apply keyFiles_loop in H as [Hkeys Hvals].
  - split; [done|]. split; [|split].
    + intros k v Hkv. destruct (Hvals k v Hkv) as [Hin|Hr]; [|done].
      by apply elem_of_nil in Hin.
    + rewrite Hkeys. cbn [map app].
      apply NoDup_ListNoDup, List.NoDup_filter, NoDup_ListNoDup.
      apply importantFiles_NoDup.
    + rewrite <- (length_map fst), Hkeys. cbn [map app].
      pose proof (List.filter_length_le (existsSync rootPath) importantFiles)
        as Hle.
      exact Hle.
  - apply importantFiles_NoDup.
  - intros f _. apply not_elem_of_nil.
Qed.

Lemma key_files_are_the_existing_ones_witness :
  map fst [(js "package.json", js "{}"); (js "README.md", js "# hi")]
  = List.filter
      (existsSync
         (FsDir None
            [ (js "README.md", FsFile (Normal (js "# hi")));
              (js "src", FsDir None []);
              (js "notes.txt", FsFile (Normal (js "x")));
              (js "package.json", FsFile (Normal (js "{}"))) ]))
      importantFiles.
Proof.
  apply (key_files_are_the_existing_ones
           (FsDir None
              [ (js "README.md", FsFile (Normal (js "# hi")));
                (js "src", FsDir None []);
                (js "notes.txt", FsFile (Normal (js "x")));
                (js "package.json", FsFile (Normal (js "{}"))) ])
           [(js "package.json", js "{}"); (js "README.md", js "# hi")]).
  reflexivity.
Defined.

(** X10. [identifyKeyFiles] throws exactly when a name of the allow-list
    exists at the root and cannot be read as a file; a directory named like
    a key file is such a case. *)
Theorem key_files_fail_iff_unreadable (rootPath : fsnode) :
  ((exists e, identifyKeyFiles rootPath = Throw e) <->
   exists f, f ∈ importantFiles /\ existsSync rootPath f = true /\
             exists e, readFileSync rootPath f = Throw e) /\
  (forall f err sub,
     f ∈ importantFiles ->
     entryAt rootPath f = Some (FsDir err sub) ->
     exists e, identifyKeyFiles rootPath = Throw e).
Proof.
  split; [apply keyFiles_loop_throws|].
  intros f err sub Hf He. apply keyFiles_loop_throws.
  exists f. split; [done|]. unfold existsSync, readFileSync. rewrite He.
  split; [done|]. by exists eisdir.
Qed.

Lemma key_files_fail_iff_unreadable_witness :
  exists e,
    identifyKeyFiles
      (FsDir None [ (js "Dockerfile", FsDir None []);
                    (js "package.json", FsFile (Normal (js "{}"))) ])
    = Throw e.
Proof.
  apply (proj2 (key_files_fail_iff_unreadable
                  (FsDir None [ (js "Dockerfile", FsDir None []);
                                (js "package.json",
                                 FsFile (Normal (js "{}"))) ]))
           (js "Dockerfile") None []).
  - apply (bool_decide_unpack _). vm_compute. exact I.
  - reflexivity.
Defined.

(** X11. [identifyKeyFiles] looks at the ten names of the allow-list and at
    nothing else: two roots that agree on these names give the same
    outcome. *)
Theorem key_files_ignore_other_entries (root1 root2 : fsnode) :
  (forall f, f ∈ importantFiles -> entryAt root1 f = entryAt root2 f) ->
  identifyKeyFiles root1 = identifyKeyFiles root2.
Proof.
  intros H. unfold identifyKeyFiles. apply forEach_ext.
  intros f Hf acc. unfold readKeyFile, existsSync, readFileSync.
  by rewrite (H f Hf).
Qed.

Lemma key_files_ignore_other_entries_witness :
  identifyKeyFiles
    (FsDir None [ (js "package.json", FsFile (Normal (js "{}"))) ])
  = identifyKeyFiles
      (FsDir (Some enoent)
         [ (js "secret.env", FsFile (Normal (js "KEY=1")));
           (js "package.json", FsFile (Normal (js "{}")));
           (js "node_modules", FsBroken enoent) ]).
Proof.
  apply key_files_ignore_other_entries.
  intros f Hf.
  repeat (apply elem_of_cons in Hf as [->|Hf]; [reflexivity|]).
  by apply elem_of_nil in Hf.
Defined.

(** ** The result page *)

Lemma includes_split p s a b : s = a ++ p ++ b -> includes s p = true.
Proof. intros ->. apply includes_middle. Qed.

Lemma includes_join sep x l : x ∈ l -> includes (join sep l) x = true.
Proof.
  induction l as [|a l IH]; [intros H; by apply elem_of_nil in H|].
  destruct l as [|b l].
  - intros H. apply list_elem_of_singleton in H as ->. simpl.
    rewrite <- (app_nil_r a) at 1. apply includes_here.
  - rewrite join_cons. intros H. apply elem_of_cons in H as [->|H].
    + apply includes_here.
    + apply includes_app_r, includes_app_r. by apply IH.
Qed.

Lemma htmlChunk0_end :
  htmlChunk0 = take (length htmlChunk0 - 4) htmlChunk0 ++ js "<h1>".
Proof. vm_compute. reflexivity. Qed.

Lemma htmlChunk1_start : htmlChunk1 = js "</h1>" ++ drop 5 htmlChunk1.
Proof. vm_compute. reflexivity. Qed.

Lemma htmlChunk3_end :
  htmlChunk3 = take (length htmlChunk3 - 5) htmlChunk3 ++ js "<pre>".
Proof. vm_compute. reflexivity. Qed.

Lemma htmlChunk4_start_end :
  htmlChunk4
  = js "</pre>" ++ take (length htmlChunk4 - 9) (drop 6 htmlChunk4)
    ++ js "<p>".
Proof. vm_compute. reflexivity. Qed.

Lemma htmlChunk5_start : htmlChunk5 = js "</p>" ++ drop 4 htmlChunk5.
Proof. vm_compute. reflexivity. Qed.

Lemma html_has_summary analysis :
  includes (html analysis) (js "<p>" ++ summary analysis ++ js "</p>") = true.
Proof.
  unfold html.
  apply (includes_split _ _
           (htmlChunk0 ++ projectName analysis ++ htmlChunk1 ++
            join (js " ") (map badge (techStack analysis)) ++ htmlChunk2 ++
            join (js "") (map listItem (projectIdeas analysis)) ++
            htmlChunk3 ++ folderStructureAnalysis analysis ++
            js "</pre>" ++ take (length htmlChunk4 - 9) (drop 6 htmlChunk4))
           (drop 4 htmlChunk5)).
  rewrite htmlChunk4_start_end at 1. rewrite htmlChunk5_start at 1.
  by rewrite <- !app_assoc.
Qed.

(** X12. The page holds every field of the record as it is, with no
    escaping: the project name between the [h1] tags, the folder structure
    between the [pre] tags, the summary between the [p] tags, each tech stack
    entry in a badge and each idea in a list item. *)
Theorem page_embeds_fields_unescaped (analysis : ProjectAnalysis) :
  includes (html analysis)
           (js "<h1>" ++ projectName analysis ++ js "</h1>") = true /\
  includes (html analysis)
           (js "<pre>" ++ folderStructureAnalysis analysis ++ js "</pre>")
  = true /\
  includes (html analysis) (js "<p>" ++ summary analysis ++ js "</p>")
  = true /\
  (forall t, t ∈ techStack analysis ->
     includes (html analysis) (badge t) = true) /\
  (forall i, i ∈ projectIdeas analysis ->
     includes (html analysis) (listItem i) = true).
Proof.
  split; [|split; [|split; [|split]]].
  - unfold html.
    apply (includes_split _ _ (take (length htmlChunk0 - 4) htmlChunk0)
             (drop 5 htmlChunk1 ++
              join (js " ") (map badge (techStack analysis)) ++ htmlChunk2 ++
              join (js "") (map listItem (projectIdeas analysis)) ++
              htmlChunk3 ++ folderStructureAnalysis analysis ++
              htmlChunk4 ++ summary analysis ++ htmlChunk5)).
    rewrite htmlChunk0_end at 1. rewrite htmlChunk1_start at 1.
    by rewrite <- !app_assoc.
  - unfold html.
    apply (includes_split _ _
             (htmlChunk0 ++ projectName analysis ++ htmlChunk1 ++
              join (js " ") (map badge (techStack analysis)) ++ htmlChunk2 ++
              join (js "") (map listItem (projectIdeas analysis)) ++
              take (length htmlChunk3 - 5) htmlChunk3)
             (take (length htmlChunk4 - 9) (drop 6 htmlChunk4) ++ js "<p>" ++
              summary analysis ++ htmlChunk5)).
    rewrite htmlChunk3_end at 1. rewrite htmlChunk4_start_end at 1.
    by rewrite <- !app_assoc.
  - apply html_has_summary.
  - intros t Ht. unfold html.
    do 3 apply includes_app_r. apply includes_app_l, includes_join.
    apply list_elem_of_In, in_map, list_elem_of_In, Ht.
  - intros i Hi. unfold html.
    do 5 apply includes_app_r. apply includes_app_l, includes_join.
    apply list_elem_of_In, in_map, list_elem_of_In, Hi.
Qed.

Lemma page_embeds_fields_unescaped_witness :
  includes (html (set_techStack [js "<img src=x>"] emptyAnalysis))
           (badge (js "<img src=x>")) = true.
Proof.
  apply (proj1 (proj2 (proj2 (proj2
           (page_embeds_fields_unescaped
              (set_techStack [js "<img src=x>"] emptyAnalysis)))))).
  by left.
Defined.

(** X13. Markup in the reply reaches the page: what the last summary section
    of a reply holds after its heading stands between the [p] tags of the
    page made from the parsed reply, character for character. *)
Theorem reply_text_reaches_page (unicodeLower : jsstring -> jsstring)
  (rawText : jsstring) (pre : list jsstring) (h rest : jsstring)
  (post : list jsstring) :
  split rawText (LF ++ LF) = pre ++ (h ++ LF ++ rest) :: post ->
  includes h LF = false ->
  category (toLowerCase unicodeLower h) = Some FSummary ->
  (forall s', s' ∈ post ->
     category (toLowerCase unicodeLower (headingOf s')) <> Some FSummary) ->
  exists res, parseAiResponse unicodeLower rawText = Normal res /\
    includes (html res) (js "<p>" ++ rest ++ js "</p>") = true.
Proof.
  intros Hsplit Hh Hc Hpost. unfold parseAiResponse. rewrite Hsplit.
  destruct (forEach_normal unicodeLower (pre ++ (h ++ LF ++ rest) :: post)
              emptyAnalysis) as [res Hres].
  exists res. split; [done|].
  destruct (section_with_body h rest Hh) as [Hhead Hbody].
  assert (getField FSummary res = Text rest) as Hv.
  { rewrite (forEach_last_write unicodeLower FSummary _ _ _ _ _ Hres);
      [|by rewrite Hhead|done].
    rewrite Hbody. cbn [sectionValue]. by rewrite join_split_LF. }
  injection Hv as <-. apply html_has_summary.
Qed.

Lemma reply_text_reaches_page_witness :
  exists res,
    parseAiResponse asciiOnlyLower
      (text ["Project name"; "demo"; ""; "Summary";
             "<script>alert(1)</script>"])
    = Normal res /\
    includes (html res)
             (js "<p>" ++ js "<script>alert(1)</script>" ++ js "</p>") = true.
Proof.
  apply (reply_text_reaches_page asciiOnlyLower
           (text ["Project name"; "demo"; ""; "Summary";
                  "<script>alert(1)</script>"])
           [text ["Project name"; "demo"]] (js "Summary")
           (js "<script>alert(1)</script>") []).
  - reflexivity.
  - reflexivity.
  - reflexivity.
  - intros s' Hin. by apply elem_of_nil in Hin.
Defined.

(** ** The command *)

Lemma no_error_message_remote t :
  existsb isShowErrorMessage (map Remote t) = false.
Proof. by induction t. Qed.

(** What the progress callback does, by the outcome of its three steps. *)
Lemma progressTask_cases analyze (net : network) workspaceFolder :
  progressTask analyze net workspaceFolder
  = match getDirectoryStructure workspaceFolder with
    | Throw e =>
        ([ProgressReport (js "Scanning project structure...")], Throw e)
    | Normal structure =>
      match identifyKeyFiles workspaceFolder with
      | Throw e =>
          ([ ProgressReport (js "Scanning project structure...");
             ProgressReport (js "Identifying key files...") ], Throw e)
      | Normal keyFiles =>
        match run net (analyze structure keyFiles) with
        | (t, Throw e) =>
            ([ ProgressReport (js "Scanning project structure...");
               ProgressReport (js "Identifying key files...");
               ProgressReport (js "Consulting DeepSeek AI...") ]
             ++ map Remote t, Throw e)
        | (t, Normal analysis) =>
            ([ ProgressReport (js "Scanning project structure...");
               ProgressReport (js "Identifying key files...");
               ProgressReport (js "Consulting DeepSeek AI...") ]
             ++ map Remote t
             ++ [ CreateWebviewPanel (js "projectAnalysis")
                                     (js "Project Analysis");
                  SetHtml (html analysis) ], Normal tt)
        end
      end
    end.
Proof.
  unfold progressTask, remote, showAnalysisResults, await, emit.
  cbn [abind app].
  destruct (getDirectoryStructure workspaceFolder) as [structure|e];
    [|done]. cbn [abind app].
  destruct (identifyKeyFiles workspaceFolder) as [keyFiles|e]; [|done].
  cbn [abind app].
  destruct (run net (analyze structure keyFiles)) as [t [analysis|e]].
  - cbn [abind app]. done.
  - cbn [abind app]. by rewrite ?app_nil_r.
Qed.

Lemma commandHandler_open analyze (net : network) workspaceFolder others :
  commandHandler analyze net (Some (workspaceFolder :: others))
  = (WithProgress (js "Analyzing project...")
       :: (progressTask analyze net workspaceFolder).1
       ++ [TaskSettled (progressTask analyze net workspaceFolder).2],
     Normal tt).
Proof.
  unfold commandHandler, detached, emit. cbn [mbind option_bind head].
  by destruct (progressTask analyze net workspaceFolder) as [t c].
Qed.

Lemma progressTask_no_error_message analyze (net : network) workspaceFolder :
  existsb isShowErrorMessage (progressTask analyze net workspaceFolder).1
  = false.
Proof.
  rewrite progressTask_cases.
  destruct (getDirectoryStructure workspaceFolder) as [structure|e]; [|done].
  destruct (identifyKeyFiles workspaceFolder) as [keyFiles|e]; [|done].
  destruct (run net (analyze structure keyFiles)) as [t [analysis|e]];
    cbn [fst]; rewrite !existsb_app, no_error_message_remote; done.
Qed.

(** X18. The command as the source has it, with the key bound to the empty
    string, sends no request and makes no result panel, in any workspace and
    whatever the network would answer; with a folder open its task always
    ends with an error. *)
Theorem shipped_command_never_requests (unicodeLower : jsstring -> jsstring)
  (stringifyFiles : list (jsstring * jsstring) -> jsstring)
  (net : network) (workspaceFolders : option (list fsnode)) :
  existsb isRequest
    (analyzeProject unicodeLower stringifyFiles net workspaceFolders).1
  = false /\
  existsb isPanel
    (analyzeProject unicodeLower stringifyFiles net workspaceFolders).1
  = false /\
  (forall workspaceFolder others,
     workspaceFolders = Some (workspaceFolder :: others) ->
     exists t e,
       (analyzeProject unicodeLower stringifyFiles net workspaceFolders).1
       = WithProgress (js "Analyzing project...")
           :: t ++ [TaskSettled (Throw e)]).
Proof.
  unfold analyzeProject.
  destruct workspaceFolders as [[|folder others]|].
  - split; [done|]. split; [done|]. intros ? ? [=].
  - rewrite commandHandler_open, progressTask_cases.
    destruct (getDirectoryStructure folder) as [structure|e].
    + destruct (identifyKeyFiles folder) as [keyFiles|e].
      * change (run net (analyzeWithDeepSeek unicodeLower stringifyFiles
                           structure keyFiles))
          with ([EvGetConfiguration (js "autopilot")],
                @Throw ProjectAnalysis configError).
        split; [done|]. split; [done|]. intros ? ? _. cbn [fst snd].
        by eexists _, _.
      * split; [done|]. split; [done|]. intros ? ? _. cbn [fst snd].
        by eexists _, _.
    + split; [done|]. split; [done|]. intros ? ? _. cbn [fst snd].
      by eexists _, _.
  - split; [done|]. split; [done|]. intros ? ? [=].
Qed.

Lemma shipped_command_never_requests_witness :
  exists t e,
    (analyzeProject asciiOnlyLower (fun _ => js "{}")
       (fun _ _ => Normal (mkResponse true (js "OK") (Normal VNull)))
       (Some [FsDir None [(js "package.json", FsFile (Normal (js "{}")))]])).1
    = WithProgress (js "Analyzing project...")
        :: t ++ [TaskSettled (Throw e)].
Proof.
  eapply (proj2 (proj2 (shipped_command_never_requests asciiOnlyLower
                          (fun _ => js "{}")
                          (fun _ _ => Normal (mkResponse true (js "OK")
                                                (Normal VNull)))
                          (Some [FsDir None
                                   [(js "package.json",
                                     FsFile (Normal (js "{}")))]])))).
  reflexivity.
Defined.

(** X19. The handler does not await the progress task, so its [catch] never
    sees an error of the task: with a folder open the handler ends normally
    and shows no error message, whatever the scan, the key files and the
    remote call do; the error is only the outcome of the dropped task.
    Folders after the first are not looked at. *)
Theorem task_failure_is_not_reported
  (analyze : jsstring -> list (jsstring * jsstring) -> prog ProjectAnalysis)
  (net : network) (workspaceFolder : fsnode) (others : list fsnode) :
  (commandHandler analyze net (Some (workspaceFolder :: others))).2
  = Normal tt /\
  existsb isShowErrorMessage
    (commandHandler analyze net (Some (workspaceFolder :: others))).1
  = false /\
  last (commandHandler analyze net (Some (workspaceFolder :: others))).1
  = Some (TaskSettled (progressTask analyze net workspaceFolder).2) /\
  commandHandler analyze net (Some (workspaceFolder :: others))
  = commandHandler analyze net (Some [workspaceFolder]).
Proof.
  rewrite !commandHandler_open. cbn [fst snd existsb isShowErrorMessage].
  split; [done|]. split; [|split; [|done]].
  - rewrite existsb_app, progressTask_no_error_message. done.
  - rewrite app_comm_cons. apply last_snoc.
Qed.

(** X21. The command as the source has it stops at the first step that
    fails, and what it shows tells which: without a folder the one message
    [No workspace folder found!]; when the scan fails the title and the
    first progress message; when a key file cannot be read the title and
    two progress messages; otherwise all three progress messages and the
    read of the configuration.  In the last three cases the task ends with
    the error of the step that failed, the configuration error when the scan
    and the key files went well. *)
Theorem command_stops_at_first_failure (unicodeLower : jsstring -> jsstring)
  (stringifyFiles : list (jsstring * jsstring) -> jsstring)
  (net : network) :
  (forall workspaceFolders,
     workspaceFolders = None \/ workspaceFolders = Some [] ->
     analyzeProject unicodeLower stringifyFiles net workspaceFolders
     = ([ShowErrorMessage (js "No workspace folder found!")], Normal tt)) /\
  (forall workspaceFolder others e,
     getDirectoryStructure workspaceFolder = Throw e ->
     analyzeProject unicodeLower stringifyFiles net
       (Some (workspaceFolder :: others))
     = ([ WithProgress (js "Analyzing project...");
          ProgressReport (js "Scanning project structure...");
          TaskSettled (Throw e) ], Normal tt)) /\
  (forall workspaceFolder others structure e,
     getDirectoryStructure workspaceFolder = Normal structure ->
     identifyKeyFiles workspaceFolder = Throw e ->
     analyzeProject unicodeLower stringifyFiles net
       (Some (workspaceFolder :: others))
     = ([ WithProgress (js "Analyzing project...");
          ProgressReport (js "Scanning project structure...");
          ProgressReport (js "Identifying key files...");
          TaskSettled (Throw e) ], Normal tt)) /\
  (forall workspaceFolder others structure keyFiles,
     getDirectoryStructure workspaceFolder = Normal structure ->
     identifyKeyFiles workspaceFolder = Normal keyFiles ->
     analyzeProject unicodeLower stringifyFiles net
       (Some (workspaceFolder :: others))
     = ([ WithProgress (js "Analyzing project...");
          ProgressReport (js "Scanning project structure...");
          ProgressReport (js "Identifying key files...");
          ProgressReport (js "Consulting DeepSeek AI...");
          Remote (EvGetConfiguration (js "autopilot"));
          TaskSettled (Throw configError) ], Normal tt)).
Proof.
  unfold analyzeProject. split; [|split; [|split]].
  - by intros ? [-> | ->].
  - intros folder others e Hscan.
    by rewrite commandHandler_open, progressTask_cases, Hscan.
  - intros folder others structure e Hscan Hkeys.
    by rewrite commandHandler_open, progressTask_cases, Hscan, Hkeys.
  - intros folder others structure keyFiles Hscan Hkeys.
    by rewrite commandHandler_open, progressTask_cases, Hscan, Hkeys.
Qed.

Lemma command_stops_at_first_failure_witness :
  analyzeProject asciiOnlyLower (fun _ => js "{}")
    (fun _ _ => Throw (Error (js "offline")))
    (Some [FsDir None [(js "Dockerfile", FsDir None [])]])
  = ([ WithProgress (js "Analyzing project...");
       ProgressReport (js "Scanning project structure...");
       ProgressReport (js "Identifying key files...");
       TaskSettled (Throw eisdir) ], Normal tt).
Proof.
  eapply (proj1 (proj2 (proj2 (command_stops_at_first_failure _ _ _))));
    reflexivity.
Defined.
